(** * pandora: the conversation state machine of [pandora/bots/legacy.py]

    A shallow embedding of the turn-management core of the command-line
    chat client: [ChatPrompt], [State], and the [ChatBot] methods
    [__load_conversation], [__talk], [__regenerate_reply], [__continue],
    [__print_reply] and [__set_conversation_title].

    Python objects are mutable and shared by reference, so [ChatPrompt]
    and [State] instances live in two stores addressed by location; a
    method is a function from the world before the call to an outcome
    (normal return or raised exception) and the world after it. *)

From stdpp Require Import base option list strings gmap pretty.
From Stdlib Require Import ZArith Lia Ascii.

Local Open Scope string_scope.
Local Open Scope list_scope.

(** ** Python primitives *)

(** Truthiness of a [str], and of a value that is a [str] or [None]. *)
Definition truthy (s : string) : bool :=
  match s with EmptyString => false | String _ _ => true end.

Definition truthy_opt (o : option string) : bool :=
  match o with None => false | Some s => truthy s end.

(** [s[p:]] for a non-negative offset [p]; past the end it is empty. *)
Fixpoint slice_from (p : nat) (s : string) : string :=
  match p, s with
  | O, _ => s
  | S _, EmptyString => EmptyString
  | S p', String _ s' => slice_from p' s'
  end.

(** ** JSON shapes received from the remote service *)

(** A message object.  [msg_author] is [author.role] when the [author]
    key is present, [msg_role] the plain [role] key; [msg_parts] is
    [content.parts]; [msg_model_slug] is [metadata.model_slug];
    [msg_end_turn] is absent ([None]), null ([Some None]) or a boolean. *)
Record Message := {
  msg_id : string;
  msg_author : option string;
  msg_role : option string;
  msg_parts : list string;
  msg_model_slug : option string;
  msg_end_turn : option (option bool)
}.

(** A node of the conversation mapping. *)
Record Node := {
  node_id : string;
  node_parent : option string;
  node_message : option Message
}.

(** The result of [get_conversation]. *)
Record Conversation := {
  conv_title : string;
  conv_current_node : string;
  conv_mapping : gmap string Node
}.

(** One decoded event of a reply stream. *)
Record StreamEvent := {
  ev_error : option string;
  ev_message : option Message;
  ev_conversation_id : option string
}.

(** ** The objects of the program *)

Definition ploc := nat.   (* address of a ChatPrompt *)
Definition sloc := nat.   (* address of a State *)

Record ChatPrompt := {
  prompt : option string;
  parent_id : option string;
  message_id : string
}.

Record State := {
  title : option string;
  conversation_id : option string;
  model_slug : option string;
  user_prompt : ploc;
  chatgpt_prompt : ploc;
  user_prompts : list ploc;
  edit_index : option nat
}.

(** ** Observable effects *)

Inductive Style :=
  | info | info_b | info_bh | success | success_b
  | error | debug | debug_h | debug_bh | warn | warn_b.

(** A write to the terminal: a [Console] method with its text and whether
    the line is ended, or the builtin [print]. *)
Inductive Output :=
  | Con (s : Style) (text : string) (newline : bool)
  | Builtin_print (text : string).

(** A request sent to the remote collaborator [self.chatgpt]. *)
Inductive RemoteCall :=
  | call_get_conversation (cid : string)
  | call_talk (text : string) (model : option string) (mid : string)
      (pid : option string) (cid : option string)
  | call_regenerate_reply (text : option string) (model : option string)
      (cid : option string) (mid : string) (pid : option string)
  | call_goon (model : option string) (mid : string) (cid : option string)
  | call_gen_conversation_title (cid : option string)
      (model : option string) (mid : string)
  | call_set_conversation_title (cid : option string) (new_title : string).

Inductive Exn :=
  | Exception_status (status : Z) (detail : StreamEvent)
  | Exception_error (e : string)
  | Exception_miss_message
  | StopIteration
  | KeyError (k : string)
  | IndexError
  | TypeError
  | AttributeError
  | EOFError
  | Diverges.

(** ** The world *)

Record World := {
  prompts : list ChatPrompt;        (* every ChatPrompt ever constructed *)
  states : list State;              (* every State ever constructed *)
  self_state : option sloc;         (* self.state *)
  token_key : option string;        (* self.token_key *)
  defaults : ploc * ploc;           (* State.__init__.__defaults__ *)
  uuid_next : nat;                  (* number of uuid4 draws so far *)
  console : list Output;            (* terminal, oldest first *)
  calls : list RemoteCall;          (* remote requests, oldest first *)
  inputs : list string              (* answers still to be typed *)
}.

Definition set_prompts (f : list ChatPrompt → list ChatPrompt) (w : World) :=
  {| prompts := f (prompts w); states := states w; self_state := self_state w;
     token_key := token_key w; defaults := defaults w;
     uuid_next := uuid_next w; console := console w; calls := calls w;
     inputs := inputs w |}.

Definition set_states (f : list State → list State) (w : World) :=
  {| prompts := prompts w; states := f (states w); self_state := self_state w;
     token_key := token_key w; defaults := defaults w;
     uuid_next := uuid_next w; console := console w; calls := calls w;
     inputs := inputs w |}.

Definition set_self_state (o : option sloc) (w : World) :=
  {| prompts := prompts w; states := states w; self_state := o;
     token_key := token_key w; defaults := defaults w;
     uuid_next := uuid_next w; console := console w; calls := calls w;
     inputs := inputs w |}.

Definition set_uuid_next (n : nat) (w : World) :=
  {| prompts := prompts w; states := states w; self_state := self_state w;
     token_key := token_key w; defaults := defaults w;
     uuid_next := n; console := console w; calls := calls w;
     inputs := inputs w |}.

Definition set_console (f : list Output → list Output) (w : World) :=
  {| prompts := prompts w; states := states w; self_state := self_state w;
     token_key := token_key w; defaults := defaults w;
     uuid_next := uuid_next w; console := f (console w); calls := calls w;
     inputs := inputs w |}.

Definition set_calls (f : list RemoteCall → list RemoteCall) (w : World) :=
  {| prompts := prompts w; states := states w; self_state := self_state w;
     token_key := token_key w; defaults := defaults w;
     uuid_next := uuid_next w; console := console w; calls := f (calls w);
     inputs := inputs w |}.

Definition set_inputs (l : list string) (w : World) :=
  {| prompts := prompts w; states := states w; self_state := self_state w;
     token_key := token_key w; defaults := defaults w;
     uuid_next := uuid_next w; console := console w; calls := calls w;
     inputs := l |}.

(** ** The monad of methods: state, with exceptions that keep the state *)

Inductive Res (A : Type) :=
  | Ok (a : A)
  | Raise (e : Exn).
Arguments Ok {A} a.
Arguments Raise {A} e.

Definition M (A : Type) : Type := World → Res A * World.

Definition ret {A} (a : A) : M A := λ w, (Ok a, w).

Definition raise {A} (e : Exn) : M A := λ w, (Raise e, w).

Definition bind {A B} (m : M A) (k : A → M B) : M B :=
  λ w, match m w with
       | (Ok a, w') => k a w'
       | (Raise e, w') => (Raise e, w')
       end.

Declare Scope py_scope.
Delimit Scope py_scope with py.
Notation "'let*' x ':=' m 'in' k" := (bind m (λ x, k))
  (at level 10, x pattern, m at level 100, k at level 200) : py_scope.
Notation "m ';;;' k" := (bind m (λ _, k))
  (at level 100, k at level 200, right associativity) : py_scope.
Local Open Scope py_scope.

Definition get : M World := λ w, (Ok w, w).
Definition modify (f : World → World) : M unit := λ w, (Ok tt, f w).

Definition or_raise {A} (e : Exn) (o : option A) : M A :=
  match o with Some a => ret a | None => raise e end.

(** *** Store access *)

Definition deref (l : ploc) : M ChatPrompt :=
  let* w := get in or_raise AttributeError (prompts w !! l).

Definition alloc (c : ChatPrompt) : M ploc :=
  let* w := get in
  modify (set_prompts (λ h, h ++ [c])) ;;;
  ret (length (prompts w)).

Definition update (l : ploc) (f : ChatPrompt → ChatPrompt) : M unit :=
  let* c := deref l in
  modify (set_prompts (λ h, <[l := f c]> h)).

(** [self.state]; it is [None] until a conversation is started or loaded. *)
Definition self_state_loc : M sloc :=
  let* w := get in or_raise AttributeError (self_state w).

Definition read_state (s : sloc) : M State :=
  let* w := get in or_raise AttributeError (states w !! s).

Definition write_state (s : sloc) (f : State → State) : M unit :=
  let* st := read_state s in
  modify (set_states (λ h, <[s := f st]> h)).

Definition get_state : M State :=
  let* s := self_state_loc in read_state s.

Definition modify_state (f : State → State) : M unit :=
  let* s := self_state_loc in write_state s f.

(** Field assignments. *)
Definition with_prompt (v : option string) (c : ChatPrompt) :=
  {| prompt := v; parent_id := parent_id c; message_id := message_id c |}.
Definition with_parent_id (v : option string) (c : ChatPrompt) :=
  {| prompt := prompt c; parent_id := v; message_id := message_id c |}.
Definition with_message_id (v : string) (c : ChatPrompt) :=
  {| prompt := prompt c; parent_id := parent_id c; message_id := v |}.

Definition with_title (v : option string) (s : State) :=
  {| title := v; conversation_id := conversation_id s;
     model_slug := model_slug s; user_prompt := user_prompt s;
     chatgpt_prompt := chatgpt_prompt s; user_prompts := user_prompts s;
     edit_index := edit_index s |}.
Definition with_conversation_id (v : option string) (s : State) :=
  {| title := title s; conversation_id := v;
     model_slug := model_slug s; user_prompt := user_prompt s;
     chatgpt_prompt := chatgpt_prompt s; user_prompts := user_prompts s;
     edit_index := edit_index s |}.
Definition with_model_slug (v : option string) (s : State) :=
  {| title := title s; conversation_id := conversation_id s;
     model_slug := v; user_prompt := user_prompt s;
     chatgpt_prompt := chatgpt_prompt s; user_prompts := user_prompts s;
     edit_index := edit_index s |}.
Definition with_user_prompt (v : ploc) (s : State) :=
  {| title := title s; conversation_id := conversation_id s;
     model_slug := model_slug s; user_prompt := v;
     chatgpt_prompt := chatgpt_prompt s; user_prompts := user_prompts s;
     edit_index := edit_index s |}.
Definition with_user_prompts (v : list ploc) (s : State) :=
  {| title := title s; conversation_id := conversation_id s;
     model_slug := model_slug s; user_prompt := user_prompt s;
     chatgpt_prompt := chatgpt_prompt s; user_prompts := v;
     edit_index := edit_index s |}.
Definition with_edit_index (v : option nat) (s : State) :=
  {| title := title s; conversation_id := conversation_id s;
     model_slug := model_slug s; user_prompt := user_prompt s;
     chatgpt_prompt := chatgpt_prompt s; user_prompts := user_prompts s;
     edit_index := v |}.

(** *** Terminal, keyboard, random identifiers *)

Definition Console (s : Style) (text : string) : M unit :=
  modify (set_console (λ c, c ++ [Con s text true])).

(** [Console.success(text, end='')]. *)
Definition Console_success_noend (text : string) : M unit :=
  modify (set_console (λ c, c ++ [Con success text false])).

Definition print (text : string) : M unit :=
  modify (set_console (λ c, c ++ [Builtin_print text])).

(** [Prompt.ask(...)]: the next answer typed by the user. *)
Definition Prompt_ask : M string :=
  let* w := get in
  match inputs w with
  | [] => raise EOFError
  | a :: rest => modify (set_inputs rest) ;;; ret a
  end.

(** [uuid.uuid4()] is idealised as a supply of pairwise distinct
    identifiers: the [n]-th draw is rendered as [uuid_of n]. *)
Definition uuid_of (n : nat) : string := "uuid-" +:+ pretty n.

Definition gen_message_id : M string :=
  let* w := get in
  modify (set_uuid_next (S (uuid_next w))) ;;;
  ret (uuid_of (uuid_next w)).

Definition log_call (c : RemoteCall) : M unit :=
  modify (set_calls (λ l, l ++ [c])).

Definition set_defaults (d : ploc * ploc) (w : World) :=
  {| prompts := prompts w; states := states w; self_state := self_state w;
     token_key := token_key w; defaults := d;
     uuid_next := uuid_next w; console := console w; calls := calls w;
     inputs := inputs w |}.

(** ** class ChatPrompt *)

(** [ChatPrompt.__init__]: [x or self.gen_message_id()] keeps a truthy
    [x] and draws a fresh identifier otherwise. *)
Definition ChatPrompt_init (prompt : option string)
    (parent_id message_id : option string) : M ploc :=
  let* pid := (if truthy_opt parent_id then ret parent_id
               else let* u := gen_message_id in ret (Some u)) in
  let* mid := (match message_id with
               | Some m => if truthy m then ret m else gen_message_id
               | None => gen_message_id
               end) in
  alloc {| prompt := prompt; parent_id := pid; message_id := mid |}.

(** ** class State *)

(** The [def] statement of [State.__init__] evaluates its two default
    arguments [ChatPrompt()] once, when the class body runs. *)
Definition State_class_body : M unit :=
  let* u := ChatPrompt_init None None None in
  let* c := ChatPrompt_init None None None in
  modify (set_defaults (u, c)).

(** [State.__init__]; an omitted prompt argument is the stored default. *)
Definition State_init (title conversation_id model_slug : option string)
    (user_prompt chatgpt_prompt : option ploc) : M sloc :=
  let* w := get in
  modify (set_states (λ h, h ++ [
    {| title := title; conversation_id := conversation_id;
       model_slug := model_slug;
       user_prompt := default (defaults w).1 user_prompt;
       chatgpt_prompt := default (defaults w).2 chatgpt_prompt;
       user_prompts := []; edit_index := None |}])) ;;;
  ret (length (states w)).

(** The world once the module is imported and a [ChatBot] is made. *)
Definition empty_world (keys : list string) : World :=
  {| prompts := []; states := []; self_state := None; token_key := None;
     defaults := (0, 0); uuid_next := 0; console := []; calls := [];
     inputs := keys |}.

Definition boot (keys : list string) : World :=
  (State_class_body (empty_world keys)).2.

(** ** The remote collaborator [self.chatgpt]

    Only its request/response contract is known.  Every answer may depend
    on the token and on all requests made before. *)
Record Remote := {
  chatgpt_get_conversation :
    list RemoteCall → option string → string → Conversation;
  chatgpt_talk :
    list RemoteCall → option string → string → option string → string →
    option string → option string → Z * list StreamEvent;
  chatgpt_regenerate_reply :
    list RemoteCall → option string → option string → option string →
    option string → string → option string → Z * list StreamEvent;
  chatgpt_goon :
    list RemoteCall → option string → option string → string →
    option string → Z * list StreamEvent;
  chatgpt_gen_conversation_title :
    list RemoteCall → option string → option string → option string →
    string → string;
  chatgpt_set_conversation_title :
    list RemoteCall → option string → option string → string → bool
}.

Definition newline : string := String "010"%char "".

(** ** class ChatBot *)

Section ChatBot.

Variable chatgpt : Remote.

(** A request: it is recorded, and answered from what came before. *)
Definition request {A} (c : RemoteCall)
    (answer : list RemoteCall → option string → A) : M A :=
  let* w := get in
  log_call c ;;;
  ret (answer (calls w) (token_key w)).

Definition print_conversation_title (title : string) : M unit :=
  Console info_bh
    ("==================== " +:+ title +:+ " ====================") ;;;
  Console debug_h "Double enter to send. Type /? for help.".

(** *** __print_reply *)

(** The body of [for result in generator]; [p] is the running offset. *)
Definition print_reply_event (p : nat) (result : StreamEvent) : M nat :=
  (match ev_error result with
   | Some e => if truthy e then raise (Exception_error e) else ret tt
   | None => ret tt
   end) ;;;
  let* message := or_raise Exception_miss_message (ev_message result) in
  let* role := or_raise (KeyError "author") (msg_author message) in
  let* tp :=
    (if String.eqb role "assistant" then
       let* part := or_raise IndexError (head (msg_parts message)) in
       let text := slice_from p part in
       ret (Some text, (p + String.length text)%nat)
     else ret (None, p)) in
  modify_state (with_conversation_id (ev_conversation_id result)) ;;;
  let* st := get_state in
  let* part := or_raise IndexError (head (msg_parts message)) in
  update (chatgpt_prompt st) (with_prompt (Some part)) ;;;
  let* up := deref (user_prompt st) in
  update (chatgpt_prompt st) (with_parent_id (Some (message_id up))) ;;;
  update (chatgpt_prompt st) (with_message_id (msg_id message)) ;;;
  (if String.eqb role "system" then
     update (user_prompt st) (with_parent_id (Some (msg_id message)))
   else ret tt) ;;;
  (match tp.1 with
   | Some text => if truthy text then Console_success_noend text else ret tt
   | None => ret tt
   end) ;;;
  ret tp.2.

Fixpoint print_reply_loop (p : nat) (generator : list StreamEvent) : M unit :=
  match generator with
  | [] => ret tt
  | result :: rest =>
      let* p' := print_reply_event p result in print_reply_loop p' rest
  end.

Definition print_reply (status : Z) (generator : list StreamEvent) : M unit :=
  if negb (status =? 200)%Z then
    match generator with
    | [] => raise StopIteration
    | first :: _ => raise (Exception_status status first)
    end
  else
    print_reply_loop 0 generator ;;;
    print newline.

(** *** __talk *)

(** The [if self.state.edit_index: ... else: ...] that builds the user
    prompt of the turn; [st] is [self.state] on entry. *)
Definition talk_prepare (st : State) (text : string) : M unit :=
  match edit_index st with
  | Some (S idx) =>
      let* l := or_raise IndexError (user_prompts st !! idx) in
      let* old := deref l in
      let* new := ChatPrompt_init (Some text) (parent_id old) None in
      modify_state (with_user_prompt new) ;;;
      modify_state (λ s, with_user_prompts (take idx (user_prompts s)) s) ;;;
      modify_state (with_edit_index None)
  | _ =>
      let* last := deref (chatgpt_prompt st) in
      let* new := ChatPrompt_init (Some text) (Some (message_id last)) None in
      modify_state (with_user_prompt new)
  end.

(** The request for a title that ends a first turn. *)
Definition talk_title : M unit :=
  let* st := get_state in
  let* last := deref (chatgpt_prompt st) in
  let* new_title :=
    request (call_gen_conversation_title (conversation_id st)
               (model_slug st) (message_id last))
      (λ h tok, chatgpt_gen_conversation_title chatgpt h tok
                  (conversation_id st) (model_slug st) (message_id last)) in
  modify_state (with_title (Some new_title)) ;;;
  Console debug_bh ("#### Title generated: " +:+ new_title).

(** The statements from [self.chatgpt.talk(...)] to the end. *)
Definition talk_exchange (first_prompt : bool) (text : string) : M unit :=
  let* st := get_state in
  let* up := deref (user_prompt st) in
  let* reply :=
    request (call_talk text (model_slug st) (message_id up) (parent_id up)
               (conversation_id st))
      (λ h tok, chatgpt_talk chatgpt h tok text (model_slug st)
                  (message_id up) (parent_id up) (conversation_id st)) in
  print_reply reply.1 reply.2 ;;;
  modify_state (λ s, with_user_prompts (user_prompts s ++ [user_prompt s]) s) ;;;
  if first_prompt then talk_title else ret tt.

Definition talk (text : string) : M unit :=
  Console success_b "ChatGPT:" ;;;
  let* st := get_state in
  let first_prompt := negb (truthy_opt (conversation_id st)) in
  talk_prepare st text ;;;
  talk_exchange first_prompt text.

(** *** __regenerate_reply and __continue *)

Definition regenerate_reply (state : sloc) : M unit :=
  let* st := read_state state in
  if negb (truthy_opt (conversation_id st)) then
    Console error "#### Conversation has not been created."
  else
    let* up := deref (user_prompt st) in
    let* reply :=
      request (call_regenerate_reply (prompt up) (model_slug st)
                 (conversation_id st) (message_id up) (parent_id up))
        (λ h tok, chatgpt_regenerate_reply chatgpt h tok (prompt up)
                    (model_slug st) (conversation_id st) (message_id up)
                    (parent_id up)) in
    print "" ;;;
    Console success_b "ChatGPT:" ;;;
    print_reply reply.1 reply.2.

Definition continue (state : sloc) : M unit :=
  let* st := read_state state in
  if negb (truthy_opt (conversation_id st)) then
    Console error "#### Conversation has not been created."
  else
    let* last := deref (chatgpt_prompt st) in
    let* reply :=
      request (call_goon (model_slug st) (message_id last)
                 (conversation_id st))
        (λ h tok, chatgpt_goon chatgpt h tok (model_slug st)
                    (message_id last) (conversation_id st)) in
    print "" ;;;
    Console success_b "ChatGPT:" ;;;
    print_reply reply.1 reply.2.

(** *** __set_conversation_title *)

Definition set_conversation_title (state : sloc) : M unit :=
  let* st := read_state state in
  if negb (truthy_opt (conversation_id st)) then
    Console error "#### Conversation has not been created."
  else
    let* new_title := Prompt_ask in
    if (64 <? String.length new_title)%nat then
      Console error "#### Title too long."
    else
      let* done :=
        request (call_set_conversation_title (conversation_id st) new_title)
          (λ h tok, chatgpt_set_conversation_title chatgpt h tok
                      (conversation_id st) new_title) in
      if done : bool then
        write_state state (with_title (Some new_title)) ;;;
        Console debug "#### Set title success."
      else
        Console error "#### Set title failed.".

(** *** __load_conversation *)

(** The [while True] walk from the current node up the parent links.
    Every visited node is a key of [mapping], so a walk that is still
    running after [size mapping] nodes has met a node twice and never
    stops: running out of [fuel] is reported as [Diverges]. *)
Fixpoint walk (fuel : nat) (mapping : gmap string Node)
    (current_node_id : string) (nodes : list Node) : M (list Node) :=
  match fuel with
  | O => raise Diverges
  | S fuel' =>
      let* node :=
        or_raise (KeyError current_node_id) (mapping !! current_node_id) in
      if truthy_opt (node_parent node) then
        walk fuel' mapping (default "" (node_parent node)) (node :: nodes)
      else ret nodes
  end.

(** The statements after the [if]/[elif] of the loop body, run for a
    user or assistant node on the prompt object picked by the branch. *)
Definition load_node_record (merge : bool) (target : ploc)
    (message : Message) (node : Node) : M bool :=
  let* part := or_raise IndexError (head (msg_parts message)) in
  update target (with_prompt (Some part)) ;;;
  update target (with_parent_id (node_parent node)) ;;;
  update target (with_message_id (node_id node)) ;;;
  (if negb merge then print "" else ret tt) ;;;
  ret merge.

(** The body of [for node in nodes]; takes and returns the [merge] flag. *)
Definition load_node (merge : bool) (node : Node) : M bool :=
  let* message := or_raise TypeError (node_message node) in
  (match msg_model_slug message with
   | Some slug => modify_state (with_model_slug (Some slug))
   | None => ret tt
   end) ;;;
  let* role :=
    (match msg_author message with
     | Some r => ret r
     | None => or_raise (KeyError "role") (msg_role message)
     end) in
  if String.eqb role "user" then
    let* st := get_state in
    let* part := or_raise IndexError (head (msg_parts message)) in
    let* new := ChatPrompt_init (Some part) (node_parent node) None in
    modify_state (λ s, with_user_prompts (user_prompts s ++ [new]) s) ;;;
    Console info_b "You:" ;;;
    Console info part ;;;
    load_node_record merge (user_prompt st) message node
  else if String.eqb role "assistant" then
    let* st := get_state in
    (if negb merge then Console success_b "ChatGPT:" else ret tt) ;;;
    let* part := or_raise IndexError (head (msg_parts message)) in
    Console success part ;;;
    let merge' :=
      match msg_end_turn message with Some None => true | _ => false end in
    load_node_record merge' (chatgpt_prompt st) message node
  else ret merge.

Fixpoint load_nodes (merge : bool) (nodes : list Node) : M unit :=
  match nodes with
  | [] => ret tt
  | node :: rest =>
      let* merge' := load_node merge node in load_nodes merge' rest
  end.

Definition load_conversation (conversation_id : option string) : M unit :=
  if negb (truthy_opt conversation_id) then ret tt
  else
    let cid := default "" conversation_id in
    let* s := State_init None (Some cid) None None None in
    modify (set_self_state (Some s)) ;;;
    let* result :=
      request (call_get_conversation cid)
        (λ h tok, chatgpt_get_conversation chatgpt h tok cid) in
    let* nodes :=
      walk (S (size (conv_mapping result))) (conv_mapping result)
        (conv_current_node result) [] in
    modify_state (with_title (Some (conv_title result))) ;;;
    print_conversation_title (conv_title result) ;;;
    load_nodes false nodes.

End ChatBot.

(** *** __get_input *)

(** The builtin [input()]: the next line typed, [EOFError] at the end. *)
Definition input : M string :=
  let* w := get in
  match inputs w with
  | [] => raise EOFError
  | a :: rest => modify (set_inputs rest) ;;; ret a
  end.

(** The [while True] of [__get_input]; every round reads one line, so
    [fuel] above the number of lines still to be typed is never used
    up. *)
Fixpoint get_input_loop (fuel : nat) (lines : list string) : M string :=
  match fuel with
  | O => raise Diverges
  | S fuel' =>
      let* line := input in
      if negb (truthy line) then ret (String.concat newline lines)
      else
        match line with
        | String c _ =>
            if Ascii.eqb c "/" then ret line
            else get_input_loop fuel' (lines ++ [line])
        | EmptyString => raise IndexError
        end
  end.

Definition get_input : M string :=
  let* w := get in get_input_loop (S (length (inputs w))) [].

(** * Vocabulary of the statements *)

(** An invariant kept by a method whatever its outcome. *)
Definition keeps (I : World → Prop) {A} (m : M A) : Prop :=
  ∀ w, I w → I (m w).2.

(** The object [self.state.user_prompt] of a world, when there is one. *)
Definition current_user_prompt (w : World) : option ChatPrompt :=
  s ← self_state w; st ← states w !! s; prompts w !! user_prompt st.

(** *** The effect of one well-formed stream event

    An event is well formed when its [error] is falsy, it has a message
    with an author role [r], and [content.parts] starts with [part]. *)

(** What the event writes to the terminal at offset [p]. *)
Definition emitted (p : nat) (r part : string) : list Output :=
  if String.eqb r "assistant" && truthy (slice_from p part)
  then [Con success (slice_from p part) false] else [].

(** The offset after the event. *)
Definition advanced (p : nat) (r part : string) : nat :=
  if String.eqb r "assistant" then p + String.length (slice_from p part)
  else p.

(** The assistant prompt after the event; [up] is the user prompt. *)
Definition replied (up : ChatPrompt) (m : Message) (part : string) :=
  {| prompt := Some part; parent_id := Some (message_id up);
     message_id := msg_id m |}.

(** The world after the event, for the current state [st] stored at [s]
    and the user prompt [up]. *)
Definition after_event (s : sloc) (st : State) (up : ChatPrompt)
    (ev : StreamEvent) (m : Message) (r part : string) (p : nat)
    (w : World) : World :=
  set_console (λ c, c ++ emitted p r part)
    (set_prompts
       (λ h,
          let h' := <[chatgpt_prompt st := replied up m part]> h in
          if String.eqb r "system" then
            <[user_prompt st :=
                with_parent_id (Some (msg_id m))
                  (if decide (user_prompt st = chatgpt_prompt st)
                   then replied up m part else up)]> h'
          else h')
       (set_states
          (λ h, <[s := with_conversation_id (ev_conversation_id ev) st]> h)
          w)).

(** The world is ready for a reply: [self.state] and its two prompt
    objects exist. *)
Definition ready (w : World) : Prop :=
  ∃ s st, self_state w = Some s ∧ states w !! s = Some st ∧
          user_prompt st < length (prompts w) ∧
          chatgpt_prompt st < length (prompts w).

(** *** Streams of cumulative text *)

Definition event_role (ev : StreamEvent) : option string :=
  m ← ev_message ev; msg_author m.

Definition event_text (ev : StreamEvent) : option string :=
  m ← ev_message ev; head (msg_parts m).

(** An event the consumer accepts: no error, a message with an author
    role and a first content part. *)
Definition well_formed (ev : StreamEvent) : bool :=
  negb (truthy_opt (ev_error ev)) &&
  bool_decide (is_Some (event_role ev)) &&
  bool_decide (is_Some (event_text ev)).

(** The full texts carried by the assistant events, in order. *)
Definition assistant_texts (generator : list StreamEvent) : list string :=
  omap (λ ev, if bool_decide (event_role ev = Some "assistant")
              then event_text ev else None) generator.

(** The lengths never decrease along the list. *)
Fixpoint growing (texts : list string) : Prop :=
  match texts with
  | t1 :: rest =>
      match rest with
      | t2 :: _ => (String.length t1 ≤ String.length t2)%nat
      | [] => True
      end ∧ growing rest
  | [] => True
  end.

(** The final text of a stream: its last assistant text, or the empty
    string when there was none. *)
Definition final_text (texts : list string) : string :=
  default "" (last texts).

(** The concatenation of a list of strings. *)
Definition joined (l : list string) : string := foldr String.append "" l.

(** The node ids of the system events of a stream, in order. *)
Definition system_ids (generator : list StreamEvent) : list string :=
  omap (λ ev, if bool_decide (event_role ev = Some "system")
              then msg_id <$> ev_message ev else None) generator.

(** The parent of the user prompt once the stream is consumed: the id of
    the last system event, or the parent it had when there was none. *)
Definition reparented (old : option string) (generator : list StreamEvent)
    : option string :=
  match last (system_ids generator) with
  | Some id => Some id
  | None => old
  end.

(** *** Requests *)

Definition is_title_request (c : RemoteCall) : bool :=
  match c with call_gen_conversation_title _ _ _ => true | _ => false end.

Definition title_requests (l : list RemoteCall) : nat :=
  length (filter (λ c, is_title_request c = true) l).

(** *** Conversation trees *)

(** The role of a node, read from [author.role] or else from [role]. *)
Definition node_role (node : Node) : option string :=
  m ← node_message node;
  match msg_author m with Some r => Some r | None => msg_role m end.

Definition node_text (node : Node) : option string :=
  m ← node_message node; head (msg_parts m).

(** A node the loop body accepts: a message with a role and a text. *)
Definition loadable (node : Node) : bool :=
  bool_decide (is_Some (node_role node)) &&
  bool_decide (is_Some (node_text node)).

(** [end_turn] is present and null. *)
Definition holds_turn_open (node : Node) : bool :=
  match node_message node with
  | Some m => match msg_end_turn m with Some None => true | _ => false end
  | None => false
  end.

(** The blank line that closes a turn unless the merge flag is set. *)
Definition blank (merge : bool) : list Output :=
  if merge then [] else [Builtin_print ""].

(** What the loop body writes for a node, entered with flag [merge]. *)
Definition rendering (merge : bool) (node : Node) : list Output :=
  let text := default "" (node_text node) in
  if bool_decide (node_role node = Some "user") then
    [Con info_b "You:" true; Con info text true] ++ blank merge
  else if bool_decide (node_role node = Some "assistant") then
    (if merge then [] else [Con success_b "ChatGPT:" true]) ++
    [Con success text true] ++ blank (holds_turn_open node)
  else [].

(** The merge flag after the loop body. *)
Definition next_merge (merge : bool) (node : Node) : bool :=
  if bool_decide (node_role node = Some "user") then merge
  else if bool_decide (node_role node = Some "assistant")
  then holds_turn_open node else merge.

(** The user-role nodes of a list, in order. *)
Definition users (nodes : list Node) : list Node :=
  filter (λ n, node_role n = Some "user") nodes.

(** [path] hangs below [parent]: every node names the one before it as
    its parent, by a non-empty id. *)
Fixpoint linked (parent : Node) (path : list Node) : Prop :=
  match path with
  | [] => True
  | n :: rest =>
      node_parent n = Some (node_id parent) ∧
      truthy (node_id parent) = true ∧ linked n rest
  end.

(** A single root-to-leaf path: a root without parent, then [path]. *)
Definition single_path (root : Node) (path : list Node) : Prop :=
  truthy_opt (node_parent root) = false ∧
  NoDup (node_id <$> root :: path) ∧ linked root path.

(** The node map of a list of nodes, keyed by node id. *)
Definition path_map (nodes : list Node) : gmap string Node :=
  list_to_map ((λ n, (node_id n, n)) <$> nodes).

Definition leaf (root : Node) (path : list Node) : Node :=
  default root (last path).

(** ** Sample data *)

Definition sample_message (id role text : string) : Message :=
  {| msg_id := id; msg_author := Some role; msg_role := None;
     msg_parts := [text]; msg_model_slug := None; msg_end_turn := None |}.

Definition sample_event (id role text : string) : StreamEvent :=
  {| ev_error := None; ev_message := Some (sample_message id role text);
     ev_conversation_id := Some "conv-1" |}.

(** A remote that answers every generation request with a system event
    followed by a reply streamed in two cumulative events. *)
Definition sample_stream : list StreamEvent :=
  [sample_event "sys-1" "system" ""; sample_event "msg-1" "assistant" "He";
   sample_event "msg-1" "assistant" "Hello"].

Definition sample_remote : Remote :=
  {| chatgpt_get_conversation := λ _ _ _,
       {| conv_title := "Saved chat"; conv_current_node := "root";
          conv_mapping := ∅ |};
     chatgpt_talk := λ _ _ _ _ _ _ _, (200%Z, sample_stream);
     chatgpt_regenerate_reply := λ _ _ _ _ _ _ _, (200%Z, sample_stream);
     chatgpt_goon := λ _ _ _ _ _, (200%Z, sample_stream);
     chatgpt_gen_conversation_title := λ _ _ _ _ _, "A title";
     chatgpt_set_conversation_title := λ _ _ _ _, true |}.

(** A freshly started conversation: [State(model_slug=...)] stored in
    [self.state], nothing said yet. *)
Definition new_chat (keys : list string) : World :=
  (bind (State_init (Some "New Chat") None (Some "model-1") None None)
        (λ s, modify (set_self_state (Some s))) (boot keys)).2.

(** The same conversation after a first exchange with the sample remote. *)
Definition established_chat (keys : list string) : World :=
  (talk sample_remote "hi" (new_chat keys)).2.

(** A remote whose replies hang below another system node. *)
Definition other_stream : list StreamEvent :=
  [sample_event "sys-2" "system" ""; sample_event "msg-2" "assistant" "Again"].

Definition other_remote : Remote :=
  {| chatgpt_get_conversation := chatgpt_get_conversation sample_remote;
     chatgpt_talk := λ _ _ _ _ _ _ _, (200%Z, other_stream);
     chatgpt_regenerate_reply := chatgpt_regenerate_reply sample_remote;
     chatgpt_goon := chatgpt_goon sample_remote;
     chatgpt_gen_conversation_title :=
       chatgpt_gen_conversation_title sample_remote;
     chatgpt_set_conversation_title :=
       chatgpt_set_conversation_title sample_remote |}.

(** The established conversation once [/edit] has selected its first
    (and only) prompt. *)
Definition edit_pending (keys : list string) : World :=
  (modify_state (with_edit_index (Some 1)) (established_chat keys)).2.

(** Nodes of a saved conversation. *)
Definition sample_node (id : string) (parent : option string)
    (role text : string) (end_turn : option (option bool)) : Node :=
  {| node_id := id; node_parent := parent;
     node_message :=
       Some {| msg_id := id; msg_author := Some role; msg_role := None;
               msg_parts := [text]; msg_model_slug := None;
               msg_end_turn := end_turn |} |}.

(** An assistant node that keeps its turn open ([end_turn] is null),
    the user node that follows it, and the next assistant node. *)
Definition open_answer : Node :=
  sample_node "n1" (Some "n0") "assistant" "Hel" (Some None).
Definition next_question : Node :=
  sample_node "n2" (Some "n1") "user" "Hi" None.
Definition next_answer : Node :=
  sample_node "n3" (Some "n2") "assistant" "lo" (Some (Some true)).

(** A saved conversation: an empty root and two exchanges below it. *)
Definition saved_root : Node :=
  {| node_id := "m0"; node_parent := None; node_message := None |}.

Definition saved_path : list Node :=
  [sample_node "m1" (Some "m0") "user" "Hi" None;
   sample_node "m2" (Some "m1") "assistant" "Hello" (Some (Some true));
   sample_node "m3" (Some "m2") "user" "More" None;
   sample_node "m4" (Some "m3") "assistant" "Sure" (Some (Some true))].

Definition saved_remote : Remote :=
  {| chatgpt_get_conversation := λ _ _ _,
       {| conv_title := "Saved chat"; conv_current_node := "m4";
          conv_mapping := path_map (saved_root :: saved_path) |};
     chatgpt_talk := chatgpt_talk sample_remote;
     chatgpt_regenerate_reply := chatgpt_regenerate_reply sample_remote;
     chatgpt_goon := chatgpt_goon sample_remote;
     chatgpt_gen_conversation_title :=
       chatgpt_gen_conversation_title sample_remote;
     chatgpt_set_conversation_title :=
       chatgpt_set_conversation_title sample_remote |}.

(** A conversation whose parentless root is itself a user turn. *)
Definition spoken_root : Node := sample_node "m0" None "user" "Hi" None.

Definition spoken_path : list Node :=
  [sample_node "m1" (Some "m0") "assistant" "Hello" (Some (Some true))].

Definition spoken_remote : Remote :=
  {| chatgpt_get_conversation := λ _ _ _,
       {| conv_title := "Saved chat"; conv_current_node := "m1";
          conv_mapping := path_map (spoken_root :: spoken_path) |};
     chatgpt_talk := chatgpt_talk sample_remote;
     chatgpt_regenerate_reply := chatgpt_regenerate_reply sample_remote;
     chatgpt_goon := chatgpt_goon sample_remote;
     chatgpt_gen_conversation_title :=
       chatgpt_gen_conversation_title sample_remote;
     chatgpt_set_conversation_title :=
       chatgpt_set_conversation_title sample_remote |}.

(** The current state is the object at [s] and satisfies [P]. *)
Definition state_keeps (s : sloc) (P : State → Prop) (w : World) : Prop :=
  self_state w = Some s ∧ ∃ st, states w !! s = Some st ∧ P st.

(** The fields of a state that a reply never touches: everything but
    the conversation id. *)
Definition same_turns (st st' : State) : Prop :=
  user_prompts st' = user_prompts st ∧ edit_index st' = edit_index st ∧
  title st' = title st ∧ model_slug st' = model_slug st ∧
  user_prompt st' = user_prompt st ∧ chatgpt_prompt st' = chatgpt_prompt st.

(** A remote that refuses every talk request. *)
Definition failing_remote : Remote :=
  {| chatgpt_get_conversation := chatgpt_get_conversation sample_remote;
     chatgpt_talk := λ _ _ _ _ _ _ _,
       (500%Z, [{| ev_error := Some "server error"; ev_message := None;
                   ev_conversation_id := None |}]);
     chatgpt_regenerate_reply := chatgpt_regenerate_reply sample_remote;
     chatgpt_goon := chatgpt_goon sample_remote;
     chatgpt_gen_conversation_title :=
       chatgpt_gen_conversation_title sample_remote;
     chatgpt_set_conversation_title := λ _ _ _ _, false |}.

(** A remote whose node map is a cycle of two nodes. *)
Definition cyclic_remote : Remote :=
  {| chatgpt_get_conversation := λ _ _ _,
       {| conv_title := "Saved chat"; conv_current_node := "m2";
          conv_mapping :=
            path_map [sample_node "m1" (Some "m2") "user" "Hi" None;
                      sample_node "m2" (Some "m1") "assistant" "Hello" None] |};
     chatgpt_talk := chatgpt_talk sample_remote;
     chatgpt_regenerate_reply := chatgpt_regenerate_reply sample_remote;
     chatgpt_goon := chatgpt_goon sample_remote;
     chatgpt_gen_conversation_title :=
       chatgpt_gen_conversation_title sample_remote;
     chatgpt_set_conversation_title :=
       chatgpt_set_conversation_title sample_remote |}.

(** A line that is neither empty nor a command. *)
Definition plain_line (line : string) : bool :=
  match line with
  | String c _ => negb (Ascii.eqb c "/")
  | EmptyString => false
  end.

(** The assistant-role nodes of a list, in order. *)
Definition assistants (nodes : list Node) : list Node :=
  filter (λ n, node_role n = Some "assistant") nodes.

(** What the loop body records of a node in a prompt object. *)
Definition node_prompt (n : Node) : ChatPrompt :=
  {| prompt := node_text n; parent_id := node_parent n;
     message_id := node_id n |}.

(** The state [st] is ready for a turn in the world [w]: its assistant
    prompt exists, and an edit index that is set (and not 0) selects an
    entry of the history that exists. *)
Definition turn_ready (st : State) (w : World) : Prop :=
  chatgpt_prompt st < length (prompts w) ∧
  match edit_index st with
  | Some (S idx) =>
      ∃ l, user_prompts st !! idx = Some l ∧ l < length (prompts w)
  | _ => True
  end.

(** * Reasoning about methods *)

(** ** Running a method step by step *)

Lemma bind_ok {A B} (m : M A) (k : A → M B) w a w1 :
  m w = (Ok a, w1) → bind m k w = k a w1.
Proof. unfold bind. by intros ->. Qed.

Lemma bind_raise {A B} (m : M A) (k : A → M B) w e w1 :
  m w = (Raise e, w1) → bind m k w = (Raise e, w1).
Proof. unfold bind. by intros ->. Qed.

Lemma bind_inv_ok {A B} (m : M A) (k : A → M B) w b w2 :
  bind m k w = (Ok b, w2) → ∃ a w1, m w = (Ok a, w1) ∧ k a w1 = (Ok b, w2).
Proof.
  unfold bind. destruct (m w) as [[a|e] w1]; intros H; [eauto | discriminate].
Qed.

Lemma deref_ok l w c : prompts w !! l = Some c → deref l w = (Ok c, w).
Proof. unfold deref, bind, get, or_raise. by intros ->. Qed.

Lemma deref_inv l w c w1 :
  deref l w = (Ok c, w1) → w1 = w ∧ prompts w !! l = Some c.
Proof.
  unfold deref, bind, get, or_raise.
  destruct (prompts w !! l); cbn; intros [= ]; by subst.
Qed.

Lemma update_ok l f w c :
  prompts w !! l = Some c →
  update l f w = (Ok tt, set_prompts (λ h, <[l := f c]> h) w).
Proof. intros H. unfold update. by rewrite (bind_ok _ _ _ _ _ (deref_ok _ _ _ H)). Qed.

Lemma read_state_ok s w st :
  states w !! s = Some st → read_state s w = (Ok st, w).
Proof. unfold read_state, bind, get, or_raise. by intros ->. Qed.

Lemma get_state_ok w s st :
  self_state w = Some s → states w !! s = Some st → get_state w = (Ok st, w).
Proof.
  intros Hs Hst. unfold get_state, self_state_loc, bind, get, or_raise.
  rewrite Hs. cbn. by apply read_state_ok.
Qed.

Lemma get_state_inv w st w1 :
  get_state w = (Ok st, w1) →
  w1 = w ∧ ∃ s, self_state w = Some s ∧ states w !! s = Some st.
Proof.
  unfold get_state, self_state_loc, read_state, bind, get, or_raise.
  destruct (self_state w) as [s|]; cbn; [|discriminate].
  destruct (states w !! s) as [st'|] eqn:E; cbn; intros [= ]; subst; eauto.
Qed.

Lemma write_state_ok s f w st :
  states w !! s = Some st →
  write_state s f w = (Ok tt, set_states (λ h, <[s := f st]> h) w).
Proof.
  intros H. unfold write_state. by rewrite (bind_ok _ _ _ _ _ (read_state_ok _ _ _ H)).
Qed.

Lemma modify_state_ok f w s st :
  self_state w = Some s → states w !! s = Some st →
  modify_state f w = (Ok tt, set_states (λ h, <[s := f st]> h) w).
Proof.
  intros Hs Hst. unfold modify_state, self_state_loc, bind, get, or_raise.
  rewrite Hs. cbn. by apply write_state_ok.
Qed.

Lemma modify_state_inv f w w1 :
  modify_state f w = (Ok tt, w1) →
  ∃ s st, self_state w = Some s ∧ states w !! s = Some st ∧
          w1 = set_states (λ h, <[s := f st]> h) w.
Proof.
  unfold modify_state, self_state_loc, write_state, read_state, bind, get,
    or_raise, modify.
  destruct (self_state w) as [s|]; cbn; [|discriminate].
  destruct (states w !! s) as [st|] eqn:E; cbn; intros [= ]; subst; eauto.
Qed.

(** ** Invariants kept whatever the outcome *)

Lemma keeps_ret I {A} (a : A) : keeps I (ret a).
Proof. by intros w. Qed.

Lemma keeps_raise I {A} e : keeps I (@raise A e).
Proof. by intros w. Qed.

Lemma keeps_get I : keeps I get.
Proof. by intros w. Qed.

Lemma keeps_bind I {A B} (m : M A) (k : A → M B) :
  keeps I m → (∀ a, keeps I (k a)) → keeps I (bind m k).
Proof.
  intros Hm Hk w Hw. unfold bind. specialize (Hm w Hw).
  destruct (m w) as [[a|e] w1]; cbn in *; [by apply Hk | done].
Qed.

Lemma keeps_or_raise I {A} e (o : option A) : keeps I (or_raise e o).
Proof. destruct o; [apply keeps_ret | apply keeps_raise]. Qed.

Lemma keeps_modify I f : (∀ w, I w → I (f w)) → keeps I (modify f).
Proof. intros H w Hw. by apply H. Qed.

(** * The guards *)

(** C5. [regenerate] and [continue] on a state without a conversation id
    return normally, print the error line, send nothing to the remote and
    leave every [State] and [ChatPrompt] object as it was. *)
Theorem precondition_guard chatgpt state st w :
  states w !! state = Some st →
  truthy_opt (conversation_id st) = false →
  let guarded (r : Res unit * World) :=
    r.1 = Ok tt ∧ states r.2 = states w ∧ prompts r.2 = prompts w ∧
    self_state r.2 = self_state w ∧ calls r.2 = calls w ∧
    console r.2 =
      console w ++ [Con error "#### Conversation has not been created." true] in
  guarded (regenerate_reply chatgpt state w) ∧
  guarded (continue chatgpt state w).
Proof.
  intros Hst Hcid guarded. subst guarded. cbv beta.
  unfold regenerate_reply, continue.
  rewrite !(bind_ok _ _ _ _ _ (read_state_ok _ _ _ Hst)), Hcid.
  by cbn.
Qed.

Lemma precondition_guard_witness :
  (regenerate_reply sample_remote 0 (new_chat [])).1 = Ok tt ∧
  calls (continue sample_remote 0 (new_chat [])).2 = [].
Proof.
  pose proof (precondition_guard sample_remote 0
              {| title := Some "New Chat"; conversation_id := None;
                 model_slug := Some "model-1"; user_prompt := 0;
                 chatgpt_prompt := 1; user_prompts := [];
                 edit_index := None |} (new_chat []) eq_refl eq_refl) as H.
  cbv zeta beta in H.
  destruct H as [(Hr & _) (_ & _ & _ & _ & Hc & _)].
  split; [exact Hr | exact Hc].
Defined.

(** C6. With a status other than 200 the consumer raises at once: the
    exception carries the status and the first event of the stream, and
    the world (the state, the prompts, the terminal) is untouched.  An
    empty stream makes [next] raise [StopIteration] instead. *)
Theorem non_success_status_atomic status generator w :
  status ≠ 200%Z →
  print_reply status generator w =
    (Raise match generator with
           | [] => StopIteration
           | first :: _ => Exception_status status first
           end, w).
Proof.
  intros Hne. unfold print_reply.
  destruct (Z.eqb_spec status 200) as [->|_]; [done|].
  cbn. by destruct generator.
Qed.

Lemma non_success_status_atomic_witness :
  print_reply 500 sample_stream (new_chat []) =
    (Raise (Exception_status 500 (sample_event "sys-1" "system" "")),
     new_chat []).
Proof.
  apply (non_success_status_atomic 500 sample_stream (new_chat [])). lia.
Defined.

(** C10. A new title longer than 64 characters is refused locally: the
    method returns after printing an error, no request reaches the
    remote, and no [State] (so no title) changes. *)
Theorem title_length_guard chatgpt state st new_title rest w :
  states w !! state = Some st →
  inputs w = new_title :: rest →
  64 < String.length new_title →
  let r := set_conversation_title chatgpt state w in
  r.1 = Ok tt ∧ calls r.2 = calls w ∧ states r.2 = states w ∧
  ∃ msg, console r.2 = console w ++ [Con error msg true].
Proof.
  intros Hst Hin Hlen r. subst r. unfold set_conversation_title.
  rewrite (bind_ok _ _ _ _ _ (read_state_ok _ _ _ Hst)).
  destruct (truthy_opt (conversation_id st)); cbn [negb].
  - assert (Prompt_ask w = (Ok new_title, set_inputs rest w)) as Hask
      by (unfold Prompt_ask, bind, get; by rewrite Hin).
    rewrite (bind_ok _ _ _ _ _ Hask).
    apply Nat.ltb_lt in Hlen. rewrite Hlen. cbn. eauto.
  - cbn. eauto.
Qed.

Lemma title_length_guard_witness :
  let long := "0123456789012345678901234567890123456789012345678901234567890123456789" in
  let r := set_conversation_title sample_remote 0 (established_chat [long]) in
  r.1 = Ok tt ∧ calls r.2 = calls (established_chat [long]) ∧
  states r.2 = states (established_chat [long]) ∧
  ∃ msg, console r.2 = console (established_chat [long]) ++ [Con error msg true].
Proof.
  intros long.
  apply (title_length_guard sample_remote 0
           {| title := Some "A title"; conversation_id := Some "conv-1";
              model_slug := Some "model-1"; user_prompt := 2;
              chatgpt_prompt := 1; user_prompts := [2];
              edit_index := None |} long [] (established_chat [long])).
  - reflexivity.
  - reflexivity.
  - vm_compute. lia.
Defined.

(** * The reply-stream consumer *)

Lemma set_console_nil w : set_console (λ c, c ++ []) w = w.
Proof. destruct w. unfold set_console. cbn. by rewrite app_nil_r. Qed.

Lemma bind_ret {A B} (a : A) (k : A → M B) w : bind (ret a) k w = k a w.
Proof. done. Qed.

Lemma bind_modify {B} f (k : unit → M B) w : bind (modify f) k w = k tt (f w).
Proof. done. Qed.

Lemma bind_deref {B} l (k : ChatPrompt → M B) w c :
  prompts w !! l = Some c → bind (deref l) k w = k c w.
Proof. intros H. by rewrite (bind_ok _ _ _ _ _ (deref_ok _ _ _ H)). Qed.

Lemma bind_update {B} l f (k : unit → M B) w c :
  prompts w !! l = Some c →
  bind (update l f) k w = k tt (set_prompts (λ h, <[l := f c]> h) w).
Proof. intros H. by rewrite (bind_ok _ _ _ _ _ (update_ok _ f _ _ H)). Qed.

Lemma bind_get_state {B} (k : State → M B) w s st :
  self_state w = Some s → states w !! s = Some st →
  bind get_state k w = k st w.
Proof. intros Hs H. by rewrite (bind_ok _ _ _ _ _ (get_state_ok _ _ _ Hs H)). Qed.

Lemma bind_modify_state {B} f (k : unit → M B) w s st :
  self_state w = Some s → states w !! s = Some st →
  bind (modify_state f) k w = k tt (set_states (λ h, <[s := f st]> h) w).
Proof.
  intros Hs H. by rewrite (bind_ok _ _ _ _ _ (modify_state_ok f _ _ _ Hs H)).
Qed.

Lemma emit_ok p r part W tp :
  tp = (if String.eqb r "assistant"
        then (Some (slice_from p part),
              p + String.length (slice_from p part))
        else (None, p)) →
  (let* _ := (match tp.1 with
              | Some text =>
                  if truthy text then Console_success_noend text else ret tt
              | None => ret tt
              end) in ret tp.2) W =
  (Ok (advanced p r part), set_console (λ c, c ++ emitted p r part) W).
Proof.
  intros ->. unfold advanced, emitted.
  destruct (String.eqb r "assistant"); cbn.
  - destruct (truthy (slice_from p part)); cbn; [done|].
    by rewrite set_console_nil.
  - by rewrite set_console_nil.
Qed.

(** A well-formed event is processed without exception, and its whole
    effect is [after_event]. *)
Lemma print_reply_event_ok p ev w s st up cp m r part parts :
  self_state w = Some s → states w !! s = Some st →
  prompts w !! user_prompt st = Some up →
  prompts w !! chatgpt_prompt st = Some cp →
  truthy_opt (ev_error ev) = false →
  ev_message ev = Some m → msg_author m = Some r →
  msg_parts m = part :: parts →
  print_reply_event p ev w =
    (Ok (advanced p r part), after_event s st up ev m r part p w).
Proof.
  intros Hs Hst Hup Hcp Herr Hm Hr Hparts.
  pose proof (lookup_lt_Some _ _ _ Hst) as Hslt.
  pose proof (lookup_lt_Some _ _ _ Hup) as Hult.
  pose proof (lookup_lt_Some _ _ _ Hcp) as Hclt.
  unfold print_reply_event.
  assert ((match ev_error ev with
           | Some e => if truthy e then raise (Exception_error e) else ret tt
           | None => ret tt
           end) w = (Ok tt, w)) as H0.
  { destruct (ev_error ev) as [e|]; cbn in *; [by rewrite Herr | done]. }
  rewrite (bind_ok _ _ _ _ _ H0). clear H0.
  rewrite Hm. cbn [or_raise]. rewrite bind_ret.
  rewrite Hr. cbn [or_raise]. rewrite bind_ret.
  rewrite Hparts. cbn [or_raise head].
  assert (∃ tp, tp = (if String.eqb r "assistant"
                      then (Some (slice_from p part),
                            p + String.length (slice_from p part))
                      else (None, p))) as [tp Htp] by eauto.
  erewrite (bind_ok _ _ _ tp w);
    [| subst tp; by destruct (String.eqb r "assistant")].
  rewrite (bind_modify_state _ _ _ s st Hs Hst).
  erewrite (bind_get_state _ _ s); [| exact Hs | by apply list_lookup_insert_eq].
  rewrite bind_ret.
  cbn [with_conversation_id user_prompt chatgpt_prompt].
  erewrite bind_update; [| exact Hcp].
  destruct (decide (user_prompt st = chatgpt_prompt st)) as [E|NE].
  - assert (up = cp) as -> by congruence.
    erewrite bind_deref; [| cbn; rewrite E; by apply list_lookup_insert_eq].
    erewrite bind_update; [| cbn; by apply list_lookup_insert_eq].
    erewrite bind_update;
      [| cbn; apply list_lookup_insert_eq; by rewrite !length_insert].
    destruct (String.eqb r "system") eqn:Hsys.
    + erewrite bind_update;
        [| cbn; rewrite E; apply list_lookup_insert_eq;
           by rewrite !length_insert].
      rewrite (emit_ok p r part _ tp Htp). unfold after_event.
      rewrite Hsys, decide_True by done. do 2 f_equal.
      unfold set_prompts; cbn. f_equal.
      rewrite E. by rewrite !list_insert_insert_eq.
    + rewrite bind_ret.
      rewrite (emit_ok p r part _ tp Htp). unfold after_event.
      rewrite Hsys. do 2 f_equal.
      unfold set_prompts; cbn. f_equal.
      by rewrite !list_insert_insert_eq.
  - erewrite bind_deref;
      [| cbn; rewrite list_lookup_insert_ne by done; exact Hup].
    erewrite bind_update; [| cbn; by apply list_lookup_insert_eq].
    erewrite bind_update;
      [| cbn; apply list_lookup_insert_eq; by rewrite !length_insert].
    destruct (String.eqb r "system") eqn:Hsys.
    + erewrite bind_update;
        [| cbn; rewrite !list_lookup_insert_ne by done; exact Hup].
      rewrite (emit_ok p r part _ tp Htp). unfold after_event.
      rewrite Hsys, decide_False by done. do 2 f_equal.
      unfold set_prompts; cbn. f_equal.
      by rewrite !list_insert_insert_eq.
    + rewrite bind_ret.
      rewrite (emit_ok p r part _ tp Htp). unfold after_event.
      rewrite Hsys. do 2 f_equal.
      unfold set_prompts; cbn. f_equal.
      by rewrite !list_insert_insert_eq.
Qed.

(** ** Facts on strings *)

Lemma append_cons c s t : String c s +:+ t = String c (s +:+ t).
Proof. done. Qed.

Lemma append_empty_r s : s +:+ "" = s.
Proof. induction s as [|c s IH]; [done|]. by rewrite append_cons, IH. Qed.

Lemma append_assoc' a b c : (a +:+ b) +:+ c = a +:+ (b +:+ c).
Proof. induction a as [|x a IH]; [done|]. by rewrite !append_cons, IH. Qed.

Lemma length_slice_from p s :
  String.length (slice_from p s) = (String.length s - p)%nat.
Proof.
  revert s. induction p as [|p IH]; intros [|c s]; cbn; auto with lia.
Qed.

(** Of two prefixes of one string, the shorter one starts the longer. *)
Lemma prefix_slice a b S :
  String.prefix a S = true → String.prefix b S = true →
  (String.length a ≤ String.length b)%nat →
  b = a +:+ slice_from (String.length a) b.
Proof.
  revert b S. induction a as [|c a IH]; intros b S Ha Hb Hlen; [done|].
  destruct S as [|c' S]; [done|]. cbn in Ha.
  destruct (ascii_dec c c') as [->|]; [|done].
  destruct b as [|d b]; [cbn in Hlen; lia|]. cbn in Hb.
  destruct (ascii_dec d c') as [->|]; [|done].
  rewrite append_cons. cbn. f_equal. apply (IH b S); [done..|].
  cbn in Hlen. lia.
Qed.

Lemma truthy_false s : truthy s = false → s = "".
Proof. by destruct s. Qed.

(** ** One event *)

Lemma well_formed_inv ev :
  well_formed ev = true →
  truthy_opt (ev_error ev) = false ∧
  ∃ m r part parts, ev_message ev = Some m ∧ msg_author m = Some r ∧
                    msg_parts m = part :: parts.
Proof.
  unfold well_formed, event_role, event_text.
  intros [[He Hr%bool_decide_eq_true]%andb_true_iff
            Ht%bool_decide_eq_true]%andb_true_iff.
  split; [by apply negb_true_iff|].
  destruct (ev_message ev) as [m|]; cbn in *; [|by destruct Hr].
  destruct Hr as [r Hr], Ht as [t Ht].
  destruct (msg_parts m) as [|part parts] eqn:E; [done|]. eauto 8.
Qed.

Lemma ready_after_event s st up ev m r part p w :
  self_state w = Some s → states w !! s = Some st →
  user_prompt st < length (prompts w) →
  chatgpt_prompt st < length (prompts w) →
  let w' := after_event s st up ev m r part p w in
  self_state w' = Some s ∧
  states w' !! s = Some (with_conversation_id (ev_conversation_id ev) st) ∧
  length (prompts w') = length (prompts w).
Proof.
  intros Hs Hst Hu Hc. cbn. split; [done|]. split.
  - apply list_lookup_insert_eq. by eapply lookup_lt_Some.
  - destruct (String.eqb r "system"); by rewrite ?length_insert.
Qed.

(** C9. A well-formed event of role "system" makes its own node id the
    parent of the current user prompt and leaves the terminal and the
    offset alone; more generally no event of a role other than
    "assistant" writes anything. *)
Theorem system_event_reparents p ev m r w :
  ready w → well_formed ev = true →
  ev_message ev = Some m → msg_author m = Some r →
  ∃ p' w',
    print_reply_event p ev w = (Ok p', w') ∧
    (r = "system" →
       parent_id <$> current_user_prompt w' = Some (Some (msg_id m))) ∧
    (r ≠ "assistant" → console w' = console w ∧ p' = p).
Proof.
  intros (s & st & Hs & Hst & Hu & Hc) Hwf Hm Hr.
  destruct (well_formed_inv _ Hwf) as (Herr & m' & r' & part & parts & Hm' & Hr' & Hp).
  assert (m' = m) as -> by congruence. assert (r' = r) as -> by congruence.
  destruct (lookup_lt_is_Some_2 _ _ Hu) as [up Hup].
  destruct (lookup_lt_is_Some_2 _ _ Hc) as [cp Hcp].
  eexists _, _. split; [by eapply print_reply_event_ok|].
  destruct (ready_after_event s st up ev m r part p w Hs Hst Hu Hc)
    as (Hs' & Hst' & Hlen).
  split.
  - intros ->. unfold current_user_prompt. rewrite Hs'. cbn [mbind option_bind].
    rewrite Hst'. cbn. rewrite list_lookup_insert_eq; [done|].
    by rewrite length_insert.
  - intros Hne%String.eqb_neq. cbn [after_event console set_console].
    unfold advanced, emitted. rewrite Hne. cbn. by rewrite app_nil_r.
Qed.

Lemma system_event_reparents_witness :
  ∃ p' w',
    print_reply_event 0 (sample_event "sys-1" "system" "")
      (established_chat []) = (Ok p', w') ∧
    ("system" = "system" →
       parent_id <$> current_user_prompt w' = Some (Some "sys-1")) ∧
    ("system" ≠ "assistant" →
       console w' = console (established_chat []) ∧ p' = 0).
Proof.
  apply (system_event_reparents 0 (sample_event "sys-1" "system" "")
           (sample_message "sys-1" "system" "") "system" (established_chat [])).
  - exists 0, {| title := Some "A title"; conversation_id := Some "conv-1";
                 model_slug := Some "model-1"; user_prompt := 2;
                 chatgpt_prompt := 1; user_prompts := [2];
                 edit_index := None |}.
    repeat split; vm_compute; lia.
  - reflexivity.
  - reflexivity.
  - reflexivity.
Defined.

(** ** The whole stream *)

Lemma assistant_texts_cons ev rest m r part parts :
  ev_message ev = Some m → msg_author m = Some r →
  msg_parts m = part :: parts →
  assistant_texts (ev :: rest) =
    (if String.eqb r "assistant" then [part] else []) ++ assistant_texts rest.
Proof.
  intros Hm Hr Hp. unfold assistant_texts at 1. cbn [omap list_omap].
  unfold event_role, event_text. rewrite Hm. cbn. rewrite Hr, Hp. cbn.
  destruct (String.eqb_spec r "assistant") as [->|Hne].
  - by rewrite bool_decide_eq_true_2.
  - rewrite bool_decide_eq_false_2; [done|]. congruence.
Qed.

(** The loop, started at offset [p] after the text [E] has been shown. *)
Lemma print_reply_loop_deltas S generator :
  ∀ p E w,
    ready w → Forall (λ ev, well_formed ev = true) generator →
    String.length E = p →
    Forall (λ t, String.prefix t S = true) (E :: assistant_texts generator) →
    growing (E :: assistant_texts generator) →
    last (E :: assistant_texts generator) = Some S →
    ∃ w' incs,
      print_reply_loop p generator w = (Ok tt, w') ∧
      console w' = console w ++ map (λ t, Con success t false) incs ∧
      E +:+ joined incs = S.
Proof.
  induction generator as [|ev rest IH]; intros p E w Hready Hwf Hlen Hpre Hgrow Hlast.
  - exists w, []. cbn in *. rewrite app_nil_r, append_empty_r.
    split; [done|]. split; [done|]. congruence.
  - apply Forall_cons in Hwf as [Hev Hwf].
    destruct (well_formed_inv _ Hev) as (Herr & m & r & part & parts & Hm & Hr & Hp).
    destruct Hready as (s & st & Hs & Hst & Hu & Hc).
    destruct (lookup_lt_is_Some_2 _ _ Hu) as [up Hup].
    destruct (lookup_lt_is_Some_2 _ _ Hc) as [cp Hcp].
    cbn [print_reply_loop].
    rewrite (bind_ok _ _ _ _ _
               (print_reply_event_ok p ev w s st up cp m r part parts
                  Hs Hst Hup Hcp Herr Hm Hr Hp)).
    destruct (ready_after_event s st up ev m r part p w Hs Hst Hu Hc)
      as (Hs' & Hst' & Hlen').
    assert (ready (after_event s st up ev m r part p w)) as Hready'.
    { exists s, (with_conversation_id (ev_conversation_id ev) st).
      rewrite Hlen'. by cbn [with_conversation_id user_prompt chatgpt_prompt]. }
    rewrite (assistant_texts_cons ev rest m r part parts Hm Hr Hp) in *.
    unfold advanced. destruct (String.eqb r "assistant") eqn:Hrole.
    + cbn [app] in *.
      apply Forall_cons in Hpre as [HE Hpre].
      destruct Hgrow as [HEpart Hgrow].
      pose proof (Forall_inv Hpre) as Hpart.
      assert (part = E +:+ slice_from p part) as Hsplit.
      { rewrite <- Hlen. by apply (prefix_slice E part S). }
      destruct (IH (p + String.length (slice_from p part)) part
                  (after_event s st up ev m r part p w)) as (w' & incs & Hrun & Hcon & Hjoin);
        [done|done| |done|done|by rewrite last_cons_cons in Hlast|].
      { rewrite length_slice_from. lia. }
      rewrite Hrun.
      exists w', (if truthy (slice_from p part)
                  then slice_from p part :: incs else incs).
      split; [done|]. split.
      * rewrite Hcon. cbn [after_event console set_console]. unfold emitted.
        rewrite Hrole. cbn [andb].
        destruct (truthy (slice_from p part)); cbn; [|by rewrite app_nil_r].
        by rewrite <- app_assoc.
      * destruct (truthy (slice_from p part)) eqn:Ht.
        -- cbn [joined foldr]. fold (joined incs).
           by rewrite <- append_assoc', <- Hsplit.
        -- apply truthy_false in Ht. rewrite Ht, append_empty_r in Hsplit.
           by rewrite <- Hsplit.
    + cbn [app] in *.
      destruct (IH p E (after_event s st up ev m r part p w))
        as (w' & incs & Hrun & Hcon & Hjoin); [done..|].
      rewrite Hrun. exists w', incs. split; [done|]. split; [|done].
      rewrite Hcon. cbn [after_event console set_console]. unfold emitted.
      rewrite Hrole. cbn. by rewrite app_nil_r.
Qed.

(** C1. When the assistant events of a well-formed stream carry
    non-decreasing prefixes of their final text [S], the consumer returns
    normally and what it wrote to the terminal is a sequence of
    increments whose concatenation is [S], followed by the closing
    [print]. *)
Theorem delta_reconstruction S generator w :
  ready w →
  Forall (λ ev, well_formed ev = true) generator →
  Forall (λ t, String.prefix t S = true) (assistant_texts generator) →
  growing (assistant_texts generator) →
  final_text (assistant_texts generator) = S →
  ∃ w' incs,
    print_reply 200 generator w = (Ok tt, w') ∧
    console w' =
      console w ++ map (λ t, Con success t false) incs ++
      [Builtin_print newline] ∧
    joined incs = S.
Proof.
  intros Hready Hwf Hpre Hgrow Hfinal.
  assert (Forall (λ t, String.prefix t S = true)
            ("" :: assistant_texts generator)) as Hpre'
    by (constructor; [by destruct S | done]).
  assert (growing ("" :: assistant_texts generator)) as Hgrow'.
  { split; [|done]. destruct (assistant_texts generator); cbn; lia. }
  assert (last ("" :: assistant_texts generator) = Some S) as Hlast.
  { rewrite last_cons. unfold final_text in Hfinal.
    destruct (last (assistant_texts generator)); cbn in *; congruence. }
  destruct (print_reply_loop_deltas S generator 0 "" w
              Hready Hwf eq_refl Hpre' Hgrow' Hlast)
    as (w' & incs & Hrun & Hcon & Hjoin).
  exists (set_console (λ c, c ++ [Builtin_print newline]) w'), incs.
  split; [|split; [|done]].
  - unfold print_reply. cbn [Z.eqb Pos.eqb negb].
    by rewrite (bind_ok _ _ _ _ _ Hrun).
  - cbn. by rewrite Hcon, <- app_assoc.
Qed.

Lemma delta_reconstruction_witness :
  ∃ w' incs,
    print_reply 200 sample_stream (new_chat []) = (Ok tt, w') ∧
    console w' =
      console (new_chat []) ++ map (λ t, Con success t false) incs ++
      [Builtin_print newline] ∧
    joined incs = "Hello".
Proof.
  apply (delta_reconstruction "Hello" sample_stream (new_chat [])).
  - exists 0, {| title := Some "New Chat"; conversation_id := None;
                 model_slug := Some "model-1"; user_prompt := 0;
                 chatgpt_prompt := 1; user_prompts := [];
                 edit_index := None |}.
    repeat split; vm_compute; lia.
  - repeat constructor.
  - repeat constructor.
  - vm_compute. repeat split; lia.
  - reflexivity.
Defined.

(** * Identifiers and default prompts *)

Lemma uuid_of_inj n1 n2 : uuid_of n1 = uuid_of n2 → n1 = n2.
Proof.
  unfold uuid_of. intros H%(inj (String.app _)). by apply (inj pretty).
Qed.

(** A prompt built without a message id gets the next identifier of the
    supply, which no earlier draw has produced. *)
Lemma ChatPrompt_init_fresh text pid w :
  ∃ l c k w',
    ChatPrompt_init text pid None w = (Ok l, w') ∧
    prompts w' !! l = Some c ∧ message_id c = uuid_of k ∧
    uuid_next w ≤ k < uuid_next w'.
Proof.
  unfold ChatPrompt_init, bind, gen_message_id, alloc, get, modify, ret.
  destruct (truthy_opt pid); cbn.
  - eexists _, _, (uuid_next w), _. split; [done|].
    split; [by apply list_lookup_middle|]. cbn. split; [done|lia].
  - eexists _, _, (S (uuid_next w)), _. split; [done|].
    split; [by apply list_lookup_middle|]. cbn. split; [done|lia].
Qed.

(** C4 (the code departs from the claim).  Two [State] objects built one
    after the other without prompt arguments are distinct objects that
    hold the very same two [ChatPrompt] objects, hence equal message
    ids: the defaults were built once, when the class body ran. *)
Theorem default_prompts_shared t1 c1 m1 t2 c2 m2 w :
  let r1 := State_init t1 c1 m1 None None w in
  let r2 := State_init t2 c2 m2 None None r1.2 in
  ∃ s1 s2 st1 st2,
    r1.1 = Ok s1 ∧ r2.1 = Ok s2 ∧ s1 ≠ s2 ∧
    states r2.2 !! s1 = Some st1 ∧ states r2.2 !! s2 = Some st2 ∧
    user_prompt st1 = user_prompt st2 ∧
    chatgpt_prompt st1 = chatgpt_prompt st2 ∧
    message_id <$> prompts r2.2 !! user_prompt st1 =
      message_id <$> prompts r2.2 !! user_prompt st2.
Proof.
  cbn. eexists _, _, _, _. split; [done|]. split; [done|].
  split; [rewrite length_app; cbn; lia|].
  split.
  { rewrite lookup_app_l by (rewrite length_app; cbn; lia).
    by apply list_lookup_middle. }
  split; [apply list_lookup_middle; by rewrite length_app|].
  done.
Qed.

(** * What a completed stream has done *)

Lemma update_inv l f w w1 :
  update l f w = (Ok tt, w1) →
  ∃ c, prompts w !! l = Some c ∧ w1 = set_prompts (λ h, <[l := f c]> h) w.
Proof.
  unfold update. intros (c & w0 & [-> Hc]%deref_inv & H)%bind_inv_ok.
  exists c. split; [done|]. unfold modify in H. congruence.
Qed.

Lemma or_raise_inv {A} e (o : option A) w a w1 :
  or_raise e o w = (Ok a, w1) → o = Some a ∧ w1 = w.
Proof. destruct o; cbn; unfold ret, raise; intros [= ]; by subst. Qed.

(** An event that is processed without exception was well formed, in a
    world that was ready for it. *)
Lemma print_reply_event_inv p ev w p' w' :
  print_reply_event p ev w = (Ok p', w') →
  ∃ s st up cp m r part parts,
    self_state w = Some s ∧ states w !! s = Some st ∧
    prompts w !! user_prompt st = Some up ∧
    prompts w !! chatgpt_prompt st = Some cp ∧
    truthy_opt (ev_error ev) = false ∧
    ev_message ev = Some m ∧ msg_author m = Some r ∧
    msg_parts m = part :: parts ∧
    p' = advanced p r part ∧ w' = after_event s st up ev m r part p w.
Proof.
  intros H0. pose proof H0 as H. unfold print_reply_event in H.
  apply bind_inv_ok in H as ([] & w1 & Herr & H).
  assert (truthy_opt (ev_error ev) = false ∧ w1 = w) as [Herr' ->].
  { destruct (ev_error ev) as [e|]; cbn in *; [|by inversion Herr].
    destruct (truthy e); by inversion Herr. }
  apply bind_inv_ok in H as (m & w1 & [Hm ->]%or_raise_inv & H).
  apply bind_inv_ok in H as (r & w1 & [Hr ->]%or_raise_inv & H).
  apply bind_inv_ok in H as (tp & w1 & _ & H).
  apply bind_inv_ok in H as ([] & w2 & _ & H).
  apply bind_inv_ok in H as (st' & w3 & _ & H).
  apply bind_inv_ok in H as (part & w4 & [Hp _]%or_raise_inv & _).
  clear w1 w2 w3 w4 tp st'.
  destruct (msg_parts m) as [|part' parts] eqn:Hparts; [done|].
  cbn in Hp. injection Hp as ->.
  (* the stores were consulted on the way *)
  pose proof H0 as H. unfold print_reply_event in H.
  assert ((match ev_error ev with
           | Some e => if truthy e then raise (Exception_error e) else ret tt
           | None => ret tt
           end) w = (Ok tt, w)) as H1.
  { destruct (ev_error ev) as [e|]; cbn in *; [by rewrite Herr' | done]. }
  rewrite (bind_ok _ _ _ _ _ H1) in H. clear H1.
  rewrite Hm in H. cbn [or_raise] in H. rewrite bind_ret in H.
  rewrite Hr in H. cbn [or_raise] in H. rewrite bind_ret in H.
  rewrite Hparts in H. cbn [or_raise head] in H.
  apply bind_inv_ok in H as (tp & w1 & Htp & H).
  assert (w1 = w) as ->.
  { destruct (String.eqb r "assistant"); unfold bind, ret in Htp; cbn in Htp;
      congruence. }
  apply bind_inv_ok in H as ([] & w2 & (s & st & Hs & Hst & ->)%modify_state_inv & H).
  apply bind_inv_ok in H as (st' & w3 & [-> (s' & Hs' & Hst')]%get_state_inv & H).
  cbn in Hs', Hst'. assert (s' = s) as -> by congruence.
  rewrite list_lookup_insert_eq in Hst' by (by eapply lookup_lt_Some).
  injection Hst' as <-.
  rewrite bind_ret in H.
  cbn [with_conversation_id user_prompt chatgpt_prompt] in H.
  apply bind_inv_ok in H as ([] & w4 & (cp & Hcp & ->)%update_inv & H).
  cbn in Hcp.
  apply bind_inv_ok in H as (up' & w5 & [-> Hup']%deref_inv & _).
  cbn in Hup'. apply lookup_lt_Some in Hup'. rewrite length_insert in Hup'.
  destruct (lookup_lt_is_Some_2 _ _ Hup') as [up Hup].
  exists s, st, up, cp, m, r, part, parts.
  repeat (split; [done|]).
  rewrite (print_reply_event_ok p ev w s st up cp m r part parts) in H0 by done.
  by injection H0 as <- <-.
Qed.

Lemma reparented_cons old ev rest m r :
  ev_message ev = Some m → msg_author m = Some r →
  reparented old (ev :: rest) =
    reparented (if String.eqb r "system" then Some (msg_id m) else old) rest.
Proof.
  intros Hm Hr. unfold reparented, system_ids. cbn [omap list_omap].
  unfold event_role. rewrite Hm. cbn. rewrite Hr.
  destruct (String.eqb_spec r "system") as [->|Hne].
  - rewrite bool_decide_eq_true_2 by done. rewrite last_cons.
    by destruct (last _).
  - rewrite bool_decide_eq_false_2; [done|]. congruence.
Qed.

Lemma with_conversation_id_same st :
  with_conversation_id (conversation_id st) st = st.
Proof. by destruct st. Qed.

Lemma with_parent_id_same c : with_parent_id (parent_id c) c = c.
Proof. by destruct c. Qed.

(** The loop that returns normally has only seen well-formed events; it
    has changed the conversation id of the current state, the assistant
    prompt, and the parent of the user prompt, and nothing else. *)
Lemma print_reply_loop_inv generator :
  ∀ p w w' s st,
    print_reply_loop p generator w = (Ok tt, w') →
    self_state w = Some s → states w !! s = Some st →
    self_state w' = Some s ∧ calls w' = calls w ∧
    uuid_next w' = uuid_next w ∧ token_key w' = token_key w ∧
    (∃ cid, states w' = <[s := with_conversation_id cid st]> (states w)) ∧
    length (prompts w') = length (prompts w) ∧
    (∀ l, l ≠ user_prompt st → l ≠ chatgpt_prompt st →
          prompts w' !! l = prompts w !! l) ∧
    (user_prompt st ≠ chatgpt_prompt st →
     ∀ up, prompts w !! user_prompt st = Some up →
           prompts w' !! user_prompt st =
             Some (with_parent_id (reparented (parent_id up) generator) up)) ∧
    Forall (λ ev, well_formed ev = true) generator.
Proof.
  induction generator as [|ev rest IH]; intros p w w' s st Hrun Hs Hst.
  - cbn in Hrun. injection Hrun as <-.
    repeat (split; [done|]). split.
    { exists (conversation_id st).
      by rewrite with_conversation_id_same, list_insert_id. }
    repeat (split; [done|]). split; [|done].
    intros _ up Hup. unfold reparented. cbn.
    by rewrite with_parent_id_same.
  - cbn [print_reply_loop] in Hrun.
    apply bind_inv_ok in Hrun as (p1 & w1 & Hev & Hrun).
    apply print_reply_event_inv in Hev
      as (s' & st' & up & cp & m & r & part & parts & Hs' & Hst' & Hup & Hcp
          & Herr & Hm & Hr & Hparts & -> & ->).
    assert (s' = s) as -> by congruence.
    assert (st' = st) as -> by congruence.
    pose proof (lookup_lt_Some _ _ _ Hup) as Hult.
    pose proof (lookup_lt_Some _ _ _ Hcp) as Hclt.
    destruct (ready_after_event s st up ev m r part p w Hs Hst Hult Hclt)
      as (Hs1 & Hst1 & Hlen1).
    destruct (IH _ _ _ _ _ Hrun Hs1 Hst1)
      as (Hs2 & Hcalls & Huuid & Htok & [cid Hstates] & Hlen & Hother & Huser & Hwf).
    cbn [with_conversation_id user_prompt chatgpt_prompt] in Hother, Huser.
    split; [done|]. split; [done|]. split; [done|]. split; [done|].
    split.
    { exists cid. rewrite Hstates. cbn. by rewrite list_insert_insert_eq. }
    split; [congruence|]. split.
    { intros l Hlu Hlc. rewrite Hother by done. cbn.
      destruct (String.eqb r "system");
        by rewrite ?list_lookup_insert_ne by done. }
    split.
    { intros Hne up' Hup'. assert (up' = up) as -> by congruence.
      rewrite (reparented_cons _ ev rest m r Hm Hr).
      destruct (String.eqb r "system") eqn:Hsys.
      - rewrite (Huser Hne (with_parent_id (Some (msg_id m)) up)); [done|].
        cbn. rewrite Hsys. rewrite decide_False by done.
        apply list_lookup_insert_eq. by rewrite length_insert.
      - rewrite (Huser Hne up); [done|].
        cbn. rewrite Hsys. by rewrite list_lookup_insert_ne. }
    constructor; [|done].
    unfold well_formed, event_role, event_text. rewrite Herr, Hm. cbn.
    rewrite Hr, Hparts. cbn. done.
Qed.

Lemma print_reply_inv status generator w w' :
  print_reply status generator w = (Ok tt, w') →
  status = 200%Z ∧
  ∃ w1, print_reply_loop 0 generator w = (Ok tt, w1) ∧
        w' = set_console (λ c, c ++ [Builtin_print newline]) w1.
Proof.
  unfold print_reply. destruct (Z.eqb_spec status 200) as [->|Hne]; cbn.
  - intros ([] & w1 & Hloop & Hp)%bind_inv_ok. split; [done|].
    exists w1. split; [done|]. unfold print, modify in Hp. congruence.
  - destruct generator; unfold raise; discriminate.
Qed.

(** * One turn *)

Section Turn.

Variable chatgpt : Remote.

Lemma bind_request {A B} c (answer : list RemoteCall → option string → A)
    (k : A → M B) w :
  bind (request c answer) k w =
    k (answer (calls w) (token_key w)) (set_calls (λ l, l ++ [c]) w).
Proof. done. Qed.

(** The title request, in a world where the current state and its
    assistant prompt exist. *)
Lemma talk_title_ok w s st last :
  self_state w = Some s → states w !! s = Some st →
  prompts w !! chatgpt_prompt st = Some last →
  let c := call_gen_conversation_title (conversation_id st) (model_slug st)
             (message_id last) in
  let new_title :=
    chatgpt_gen_conversation_title chatgpt (calls w) (token_key w)
      (conversation_id st) (model_slug st) (message_id last) in
  talk_title chatgpt w =
    (Ok tt,
     set_console (λ o, o ++ [Con debug_bh ("#### Title generated: " +:+ new_title) true])
       (set_states (λ h, <[s := with_title (Some new_title) st]> h)
          (set_calls (λ l, l ++ [c]) w))).
Proof.
  intros Hs Hst Hlast c new_title. unfold talk_title.
  rewrite (bind_get_state _ _ s st Hs Hst).
  rewrite (bind_deref _ _ _ _ Hlast).
  rewrite bind_request.
  erewrite bind_modify_state; [done | exact Hs | exact Hst].
Qed.

Lemma talk_title_inv w w' :
  talk_title chatgpt w = (Ok tt, w') →
  ∃ s st last,
    self_state w = Some s ∧ states w !! s = Some st ∧
    prompts w !! chatgpt_prompt st = Some last.
Proof.
  unfold talk_title.
  intros (st & w1 & [-> (s & Hs & Hst)]%get_state_inv & H)%bind_inv_ok.
  apply bind_inv_ok in H as (last & w2 & [-> Hlast]%deref_inv & _).
  eauto 8.
Qed.

(** The exchange that returns normally: the request sent, the stream
    consumed, the user prompt appended, the title asked for on a first
    turn. *)
Lemma talk_exchange_inv first_prompt text w w' s st up :
  talk_exchange chatgpt first_prompt text w = (Ok tt, w') →
  self_state w = Some s → states w !! s = Some st →
  prompts w !! user_prompt st = Some up →
  let c := call_talk text (model_slug st) (message_id up) (parent_id up)
             (conversation_id st) in
  let reply := chatgpt_talk chatgpt (calls w) (token_key w) text
                 (model_slug st) (message_id up) (parent_id up)
                 (conversation_id st) in
  ∃ st',
    self_state w' = Some s ∧ states w' !! s = Some st' ∧
    user_prompts st' = user_prompts st ++ [user_prompt st] ∧
    edit_index st' = edit_index st ∧
    length (prompts w') = length (prompts w) ∧
    (∀ l, l ≠ user_prompt st → l ≠ chatgpt_prompt st →
          prompts w' !! l = prompts w !! l) ∧
    (user_prompt st ≠ chatgpt_prompt st →
     prompts w' !! user_prompt st =
       Some (with_parent_id (reparented (parent_id up) reply.2) up)) ∧
    if first_prompt then
      ∃ cid model mid,
        calls w' = calls w ++ [c; call_gen_conversation_title cid model mid] ∧
        title st' =
          Some (chatgpt_gen_conversation_title chatgpt (calls w ++ [c])
                  (token_key w) cid model mid)
    else calls w' = calls w ++ [c] ∧ title st' = title st.
Proof.
  intros H Hs Hst Hup c reply. unfold talk_exchange in H.
  rewrite (bind_get_state _ _ s st Hs Hst) in H.
  rewrite (bind_deref _ _ _ _ Hup) in H.
  rewrite bind_request in H. fold c reply in H.
  apply bind_inv_ok in H as ([] & w1 & Hreply & H).
  apply print_reply_inv in Hreply as (_ & w2 & Hloop & ->).
  apply (print_reply_loop_inv _ _ _ _ s st) in Hloop
    as (Hs2 & Hcalls & Huuid & Htok & [cid Hstates] & Hlen & Hother & Huser & _);
    [|exact Hs|exact Hst].
  cbn in Hcalls, Htok, Hstates, Hlen, Hother, Huser.
  pose proof (lookup_lt_Some _ _ _ Hst) as Hslt.
  set (st2 := with_conversation_id cid st) in *.
  set (st3 := with_user_prompts (user_prompts st2 ++ [user_prompt st2]) st2).
  assert (states w2 !! s = Some st2) as Hst2
    by (rewrite Hstates; by apply list_lookup_insert_eq).
  erewrite bind_modify_state in H; [|exact Hs2|exact Hst2].
  fold st3 in H.
  destruct first_prompt.
  - pose proof (talk_title_inv _ _ H) as (s' & st' & last & Hs' & Hst' & Hlast).
    cbn in Hs', Hst', Hlast.
    assert (s' = s) as -> by congruence.
    rewrite list_lookup_insert_eq in Hst' by (by rewrite Hstates, length_insert).
    injection Hst' as <-.
    rewrite (talk_title_ok _ s st3 last) in H;
      [| exact Hs2 | cbn; apply list_lookup_insert_eq;
                     by rewrite Hstates, length_insert | exact Hlast].
    injection H as <-. cbn.
    eexists. split; [done|]. split.
    { apply list_lookup_insert_eq.
      by rewrite length_insert, Hstates, length_insert. }
    cbn. repeat (split; [done|]). split; [by auto|].
    exists (conversation_id st3), (model_slug st3), (message_id last).
    rewrite Hcalls, Htok. split; [by rewrite <- app_assoc|done].
  - injection H as <-. cbn.
    exists st3. split; [done|]. split.
    { apply list_lookup_insert_eq. by rewrite Hstates, length_insert. }
    cbn. repeat (split; [done|]). split; [by auto|]. done.
Qed.

(** A prompt built without a message id is a new object appended to the
    store; nothing else moves but the identifier supply. *)
Lemma ChatPrompt_init_spec text pid w :
  ∃ c w1,
    ChatPrompt_init text pid None w = (Ok (length (prompts w)), w1) ∧
    prompts w1 = prompts w ++ [c] ∧ prompt c = text ∧
    (truthy_opt pid = true →
     parent_id c = pid ∧ message_id c = uuid_of (uuid_next w)) ∧
    states w1 = states w ∧ self_state w1 = self_state w ∧
    calls w1 = calls w ∧ token_key w1 = token_key w ∧
    console w1 = console w.
Proof.
  unfold ChatPrompt_init, bind, gen_message_id, alloc, get, modify, ret.
  destruct (truthy_opt pid); cbn; eexists _, _; (split; [done|]); cbn;
    repeat split; done.
Qed.

(** The preparation that returns normally: the new user prompt is a
    fresh object holding the text; when an edit is pending the history
    is cut before the edited entry, whose parent the new prompt takes,
    and the edit index is cleared. *)
Lemma talk_prepare_inv st text w w1 s :
  talk_prepare st text w = (Ok tt, w1) →
  self_state w = Some s → states w !! s = Some st →
  ∃ c st1,
    prompts w1 = prompts w ++ [c] ∧ prompt c = Some text ∧
    self_state w1 = Some s ∧ states w1 !! s = Some st1 ∧
    user_prompt st1 = length (prompts w) ∧
    chatgpt_prompt st1 = chatgpt_prompt st ∧
    conversation_id st1 = conversation_id st ∧
    model_slug st1 = model_slug st ∧
    calls w1 = calls w ∧ token_key w1 = token_key w ∧
    match edit_index st with
    | Some (S idx) =>
        user_prompts st1 = take idx (user_prompts st) ∧
        edit_index st1 = None ∧
        ∃ l old, user_prompts st !! idx = Some l ∧ prompts w !! l = Some old ∧
                 (truthy_opt (parent_id old) = true →
                  parent_id c = parent_id old ∧
                  message_id c = uuid_of (uuid_next w))
    | e => user_prompts st1 = user_prompts st ∧ edit_index st1 = e
    end.
Proof.
  intros H Hs Hst. pose proof (lookup_lt_Some _ _ _ Hst) as Hslt.
  unfold talk_prepare in H.
  destruct (edit_index st) as [[|idx]|] eqn:Hedit.
  2: {
    apply bind_inv_ok in H as (l & w0 & [Hl ->]%or_raise_inv & H).
    apply bind_inv_ok in H as (old & w0 & [-> Hold]%deref_inv & H).
    destruct (ChatPrompt_init_spec (Some text) (parent_id old) w)
      as (c & w2 & Hinit & Hp & Hc & Hpid & Hstates & Hself & Hcalls & Htok & _).
    rewrite (bind_ok _ _ _ _ _ Hinit) in H.
    rewrite <- Hself in Hs. rewrite <- Hstates in Hst.
    erewrite bind_modify_state in H; [|exact Hs|exact Hst].
    erewrite bind_modify_state in H;
      [|exact Hs|cbn; apply list_lookup_insert_eq; by rewrite Hstates].
    erewrite modify_state_ok in H;
      [|exact Hs
       |cbn; apply list_lookup_insert_eq; by rewrite length_insert, Hstates].
    injection H as <-. cbn.
    eexists c, _. split; [done|]. split; [done|]. split; [done|]. split.
    { apply list_lookup_insert_eq. by rewrite !length_insert, Hstates. }
    cbn. repeat (split; [done|]). eauto 8. }
  all: apply bind_inv_ok in H as (last & w0 & [-> Hlast]%deref_inv & H);
    destruct (ChatPrompt_init_spec (Some text) (Some (message_id last)) w)
      as (c & w2 & Hinit & Hp & Hc & Hpid & Hstates & Hself & Hcalls & Htok & _);
    rewrite (bind_ok _ _ _ _ _ Hinit) in H;
    rewrite <- Hself in Hs; rewrite <- Hstates in Hst;
    erewrite modify_state_ok in H; [|exact Hs|exact Hst];
    injection H as <-; cbn;
    eexists c, _; (split; [done|]); (split; [done|]); (split; [done|]);
    (split; [apply list_lookup_insert_eq; by rewrite Hstates|]);
    cbn; repeat (split; [done|]); done.
Qed.

(** ** Requests for a title *)

Lemma title_requests_snoc l c :
  title_requests (l ++ [c]) =
    title_requests l + (if is_title_request c then 1 else 0).
Proof.
  unfold title_requests. rewrite filter_app, length_app. f_equal.
  rewrite filter_cons, filter_nil.
  destruct (is_title_request c); by rewrite ?decide_True, ?decide_False by done.
Qed.

Lemma keeps_log_call_other n c :
  is_title_request c = false →
  keeps (λ w, title_requests (calls w) = n) (log_call c).
Proof.
  intros Hc w Hw. change (title_requests (calls w ++ [c]) = n).
  rewrite title_requests_snoc, Hc. lia.
Qed.

Ltac quiet :=
  repeat first
    [ apply keeps_ret | apply keeps_raise | apply keeps_get
    | apply keeps_or_raise
    | apply keeps_log_call_other; reflexivity
    | apply keeps_bind; [|intros ?]
    | apply keeps_modify; let H := fresh in intros ? H; exact H
    | match goal with
      | |- keeps _ (match ?x with _ => _ end) => destruct x
      end
    | progress unfold deref, update, alloc, get_state, modify_state,
        self_state_loc, read_state, write_state, Console,
        Console_success_noend, print, gen_message_id, request,
        ChatPrompt_init ].

Lemma print_reply_quiet n status generator :
  keeps (λ w, title_requests (calls w) = n) (print_reply status generator).
Proof.
  unfold print_reply. destruct (negb (status =? 200)%Z).
  - destruct generator; quiet.
  - apply keeps_bind; [|intros; quiet].
    generalize 0. induction generator as [|ev rest IH]; intros p; cbn.
    + quiet.
    + apply keeps_bind; [|intros; apply IH].
      unfold print_reply_event. quiet.
Qed.

(** Title requests of one turn.  On a state without a conversation id,
    a [talk] that returns normally has sent exactly one title request,
    right after the talk request, and the state's title is the answer to
    it; on a state with a conversation id no title request is sent,
    whatever the outcome. *)
Lemma talk_title_requests text w s st :
  self_state w = Some s → states w !! s = Some st →
  if truthy_opt (conversation_id st) then
    title_requests (calls (talk chatgpt text w).2) = title_requests (calls w)
  else
    ∀ w', talk chatgpt text w = (Ok tt, w') →
      title_requests (calls w') = S (title_requests (calls w)) ∧
      ∃ c cid model mid st',
        is_title_request c = false ∧
        calls w' = calls w ++ [c; call_gen_conversation_title cid model mid] ∧
        states w' !! s = Some st' ∧
        title st' =
          Some (chatgpt_gen_conversation_title chatgpt (calls w ++ [c])
                  (token_key w) cid model mid).
Proof.
  intros Hs Hst. unfold talk, Console. 
  destruct (truthy_opt (conversation_id st)) eqn:Hcid.
  - rewrite bind_modify. erewrite bind_get_state; [|exact Hs|exact Hst].
    rewrite Hcid. cbn [negb].
    assert (keeps (λ w1, title_requests (calls w1) = title_requests (calls w))
              (talk_prepare st text ;;; talk_exchange chatgpt false text)) as Hk.
    { unfold talk_prepare, talk_exchange. quiet. apply print_reply_quiet. }
    by apply Hk.
  - intros w' H. rewrite bind_modify in H.
    erewrite bind_get_state in H; [|exact Hs|exact Hst].
    rewrite Hcid in H. cbn [negb] in H.
    apply bind_inv_ok in H as ([] & w1 & Hprep & H).
    apply (talk_prepare_inv _ _ _ _ s) in Hprep
      as (c & st1 & Hp & Hc & Hs1 & Hst1 & Hu1 & _ & _ & _ & Hcalls & Htok & _);
      [|exact Hs|exact Hst].
    assert (prompts w1 !! user_prompt st1 = Some c) as Hup.
    { rewrite Hp, Hu1. by apply list_lookup_middle. }
    apply (talk_exchange_inv _ _ _ _ s st1 c) in H
      as (st' & _ & Hst' & _ & _ & _ & _ & _ & (cid & model & mid & Hcalls' & Htitle));
      [|done..].
    rewrite Hcalls, Htok in *. cbn in Hcalls.
    split.
    { rewrite Hcalls'.
      change [?a; ?b] with ([a] ++ [b]). rewrite app_assoc.
      rewrite !title_requests_snoc. cbn [is_title_request calls set_console].
      lia. }
    eexists _, cid, model, mid, st'. split; [|done]. done.
Qed.

(** ** Editing an earlier prompt *)

(** C3 (as the code has it).  With entry [k] of the history selected for
    editing, a [talk] that returns normally leaves as history the entries
    before [k] followed by one new prompt object holding the new text,
    and clears the edit index.  The new prompt is built with the parent
    of the old entry [k], but the stream is consumed before the prompt
    is appended: its recorded parent is the id of the last system event
    of the reply, and the old entry's parent only when the reply has
    none.  No older prompt object is touched, except the assistant
    prompt. *)
Theorem edit_splice text w w' s st k l old :
  self_state w = Some s → states w !! s = Some st →
  edit_index st = Some k → (1 ≤ k)%nat →
  user_prompts st !! (k - 1) = Some l →
  prompts w !! l = Some old → truthy_opt (parent_id old) = true →
  chatgpt_prompt st < length (prompts w) →
  talk chatgpt text w = (Ok tt, w') →
  let reply := chatgpt_talk chatgpt (calls w) (token_key w) text
                 (model_slug st) (uuid_of (uuid_next w)) (parent_id old)
                 (conversation_id st) in
  ∃ st' new c,
    states w' !! s = Some st' ∧
    user_prompts st' = take (k - 1) (user_prompts st) ++ [new] ∧
    edit_index st' = None ∧
    prompts w' !! new = Some c ∧ prompt c = Some text ∧
    parent_id c = reparented (parent_id old) reply.2 ∧
    ∀ e c0, e ≠ chatgpt_prompt st → prompts w !! e = Some c0 →
            prompts w' !! e = Some c0.
Proof.
  intros Hs Hst Hedit Hk Hl Hold Htruthy Hcp H reply.
  destruct k as [|idx]; [lia|]. replace (S idx - 1) with idx in * by lia.
  unfold talk, Console in H. rewrite bind_modify in H.
  erewrite bind_get_state in H; [|exact Hs|exact Hst].
  apply bind_inv_ok in H as ([] & w1 & Hprep & H).
  apply (talk_prepare_inv _ _ _ _ s) in Hprep
    as (c & st1 & Hp & Hc & Hs1 & Hst1 & Hu1 & Hc1 & Hcid & Hmodel & Hcalls
        & Htok & Hbranch); [|exact Hs|exact Hst].
  rewrite Hedit in Hbranch.
  destruct Hbranch as (Hups & Hedit1 & l' & old' & Hl' & Hold' & Hpid).
  cbn in Hl', Hold', Hpid, Hcalls, Htok, Hp, Hu1.
  assert (l' = l) as -> by congruence.
  assert (old' = old) as -> by congruence.
  destruct (Hpid Htruthy) as [Hparent Hmid].
  assert (prompts w1 !! user_prompt st1 = Some c) as Hup.
  { rewrite Hp, Hu1. by apply list_lookup_middle. }
  apply (talk_exchange_inv _ _ _ _ s st1 c) in H
    as (st' & _ & Hst' & Hups' & Hedit' & Hlen & Hother & Huser & _);
    [|done..].
  rewrite Hcalls, Htok, Hmodel, Hmid, Hparent, Hcid in Huser.
  fold reply in Huser.
  assert (user_prompt st1 ≠ chatgpt_prompt st1) as Hne
    by (rewrite Hu1, Hc1; lia).
  exists st', (length (prompts w)),
    (with_parent_id (reparented (parent_id old) reply.2) c).
  split; [done|]. split; [by rewrite Hups', Hups, Hu1|].
  split; [congruence|]. split; [rewrite <- Hu1; by apply Huser|].
  split; [done|]. split; [done|].
  intros e c0 He Hc0. pose proof (lookup_lt_Some _ _ _ Hc0) as Hlt.
  rewrite Hother; [|rewrite Hu1; lia|by rewrite Hc1].
  rewrite Hp. by rewrite lookup_app_l.
Qed.

End Turn.

Lemma edit_splice_witness :
  let w := edit_pending [] in
  let w' := (talk other_remote "again" w).2 in
  let reply := chatgpt_talk other_remote (calls w) (token_key w) "again"
                 (Some "model-1") (uuid_of (uuid_next w)) (Some "sys-1")
                 (Some "conv-1") in
  ∃ st' new c,
    states w' !! 0 = Some st' ∧
    user_prompts st' = take (1 - 1) [2] ++ [new] ∧
    edit_index st' = None ∧
    prompts w' !! new = Some c ∧ prompt c = Some "again" ∧
    parent_id c = reparented (Some "sys-1") reply.2 ∧
    ∀ e c0, e ≠ 1 → prompts w !! e = Some c0 → prompts w' !! e = Some c0.
Proof.
  intros w w'.
  assert (self_state w = Some 0) as Hs by (vm_compute; reflexivity).
  assert (states w !! 0 =
            Some {| title := Some "A title"; conversation_id := Some "conv-1";
                    model_slug := Some "model-1"; user_prompt := 2;
                    chatgpt_prompt := 1; user_prompts := [2];
                    edit_index := Some 1 |}) as Hst
    by (vm_compute; reflexivity).
  assert (prompts w !! 2 =
            Some {| prompt := Some "hi"; parent_id := Some "sys-1";
                    message_id := "uuid-4" |}) as Hold
    by (vm_compute; reflexivity).
  assert (1 < length (prompts w)) as Hcp by (vm_compute; lia).
  assert (talk other_remote "again" w = (Ok tt, w')) as Hrun
    by (vm_compute; reflexivity).
  exact (edit_splice other_remote "again" w w' 0 _ 1 2 _
           Hs Hst eq_refl (le_n 1) eq_refl Hold eq_refl Hcp Hrun).
Defined.

(** C3 as stated fails: after choosing prompt 1 of the established
    conversation and talking again, the new history entry does not have
    the parent of the old entry ("sys-1") but the system node of the new
    reply ("sys-2"). *)
Lemma edit_splice_counterexample :
  let w := edit_pending [] in
  let r := talk other_remote "again" w in
  r.1 = Ok tt ∧
  (user_prompts <$> states w !! 0) = Some [2] ∧
  (edit_index <$> states w !! 0) = Some (Some 1) ∧
  (parent_id <$> prompts w !! 2) = Some (Some "sys-1") ∧
  (user_prompts <$> states r.2 !! 0) = Some [3] ∧
  (parent_id <$> prompts r.2 !! 3) = Some (Some "sys-2") ∧
  (parent_id <$> prompts r.2 !! 3) ≠ (parent_id <$> prompts w !! 2).
Proof. vm_compute. repeat split; congruence. Qed.

(** * The loader *)

Lemma loadable_inv node :
  loadable node = true →
  ∃ m r part parts,
    node_message node = Some m ∧ node_role node = Some r ∧
    msg_parts m = part :: parts ∧ node_text node = Some part.
Proof.
  unfold loadable, node_role, node_text.
  intros [Hr%bool_decide_eq_true Ht%bool_decide_eq_true]%andb_true_iff.
  destruct (node_message node) as [m|]; cbn in *; [|by destruct Hr].
  destruct Hr as [r Hr], Ht as [t Ht].
  destruct (msg_parts m) as [|part parts] eqn:E; [done|]. eauto 8.
Qed.

Lemma load_node_record_ok merge target m node w c0 part parts :
  prompts w !! target = Some c0 → msg_parts m = part :: parts →
  load_node_record merge target m node w =
    (Ok merge,
     set_console (λ o, o ++ blank merge)
       (set_prompts
          (λ h, <[target := {| prompt := Some part;
                               parent_id := node_parent node;
                               message_id := node_id node |}]> h) w)).
Proof.
  intros Hc Hp. pose proof (lookup_lt_Some _ _ _ Hc) as Hlt.
  unfold load_node_record. rewrite Hp. cbn [or_raise head].
  rewrite bind_ret.
  erewrite bind_update; [|exact Hc].
  erewrite bind_update; [|cbn; by apply list_lookup_insert_eq].
  erewrite bind_update;
    [|cbn; apply list_lookup_insert_eq; by rewrite length_insert].
  unfold blank, print.
  destruct merge; cbn [negb]; [rewrite bind_ret|rewrite bind_modify];
    unfold ret; f_equal; rewrite ?set_console_nil;
    unfold set_console, set_prompts; cbn; f_equal;
    by rewrite !list_insert_insert_eq.
Qed.

(** The adoption of [metadata.model_slug] keeps everything but the model
    of the current state. *)
Lemma load_slug_ok (slug : option string) w s st :
  self_state w = Some s → states w !! s = Some st →
  ∃ w1 st1,
    (match slug with
     | Some v => modify_state (with_model_slug (Some v))
     | None => ret tt
     end) w = (Ok tt, w1) ∧
    self_state w1 = Some s ∧ states w1 !! s = Some st1 ∧
    user_prompt st1 = user_prompt st ∧
    chatgpt_prompt st1 = chatgpt_prompt st ∧
    user_prompts st1 = user_prompts st ∧
    prompts w1 = prompts w ∧ console w1 = console w.
Proof.
  intros Hs Hst. destruct slug as [v|].
  - exists (set_states (λ h, <[s := with_model_slug (Some v) st]> h) w),
      (with_model_slug (Some v) st).
    split; [by apply modify_state_ok|].
    split; [done|]. split; [|done].
    apply list_lookup_insert_eq. by eapply lookup_lt_Some.
  - by exists w, st.
Qed.

(** The loop body on a loadable node, in a world that is ready: it
    returns the next merge flag, writes [rendering], appends a new
    prompt when the node is a user node, and touches no existing prompt
    but the two of the current state. *)
Lemma load_node_spec merge node w s st :
  self_state w = Some s → states w !! s = Some st →
  user_prompt st < length (prompts w) →
  chatgpt_prompt st < length (prompts w) →
  loadable node = true →
  ∃ w' st',
    load_node merge node w = (Ok (next_merge merge node), w') ∧
    self_state w' = Some s ∧ states w' !! s = Some st' ∧
    user_prompt st' = user_prompt st ∧
    chatgpt_prompt st' = chatgpt_prompt st ∧
    console w' = console w ++ rendering merge node ∧
    (length (prompts w) ≤ length (prompts w'))%nat ∧
    (∀ l c0, l ≠ user_prompt st → l ≠ chatgpt_prompt st →
             prompts w !! l = Some c0 → prompts w' !! l = Some c0) ∧
    if bool_decide (node_role node = Some "user") then
      user_prompts st' = user_prompts st ++ [length (prompts w)] ∧
      ∃ c, prompts w' !! length (prompts w) = Some c ∧
           prompt c = node_text node ∧
           (truthy_opt (node_parent node) = true →
            parent_id c = node_parent node)
    else user_prompts st' = user_prompts st.
Proof.
  intros Hs Hst Hu Hc Hload.
  destruct (loadable_inv _ Hload) as (m & r & part & parts & Hm & Hr & Hp & Ht).
  unfold load_node. rewrite Hm. cbn [or_raise]. rewrite bind_ret.
  destruct (load_slug_ok (msg_model_slug m) w s st Hs Hst)
    as (w1 & st1 & Hslug & Hs1 & Hst1 & Hu1 & Hc1 & Hups1 & Hp1 & Hcon1).
  rewrite (bind_ok _ _ _ _ _ Hslug).
  assert ((match msg_author m with
           | Some r => ret r
           | None => or_raise (KeyError "role") (msg_role m)
           end) w1 = (Ok r, w1)) as Hrole.
  { unfold node_role in Hr. rewrite Hm in Hr. cbn in Hr.
    destruct (msg_author m); [by injection Hr as ->|]. by rewrite Hr. }
  rewrite (bind_ok _ _ _ _ _ Hrole).
  unfold next_merge, rendering. rewrite Hr, Ht. cbn [default].
  destruct (String.eqb_spec r "user") as [->|Hnu].
  - rewrite !bool_decide_eq_true_2 by done.
    rewrite (bind_get_state _ _ s st1 Hs1 Hst1).
    rewrite Hp. cbn [or_raise head]. rewrite bind_ret.
    destruct (ChatPrompt_init_spec (Some part) (node_parent node) w1)
      as (c & w2 & Hinit & Hp2 & Hc2 & Hpid & Hstates & Hself & _ & _ & Hcon2).
    rewrite (bind_ok _ _ _ _ _ Hinit).
    rewrite <- Hself in Hs1. rewrite <- Hstates in Hst1.
    rewrite (bind_modify_state _ _ _ s st1 Hs1 Hst1).
    unfold Console. rewrite !bind_modify.
    destruct (lookup_lt_is_Some_2 (prompts w2) (user_prompt st1)) as [c0 Hc0].
    { rewrite Hp2, length_app, Hp1, Hu1. lia. }
    erewrite load_node_record_ok; [|exact Hc0|exact Hp].
    eexists _, _. split; [done|]. cbn.
    split; [done|]. split.
    { apply list_lookup_insert_eq. by eapply lookup_lt_Some. }
    cbn. split; [done|]. split; [done|]. split.
    { rewrite Hcon2, Hcon1. by rewrite <- !app_assoc. }
    split; [rewrite length_insert, Hp2, length_app, Hp1; lia|]. split.
    { intros l c1 Hlu Hlc Hl. rewrite list_lookup_insert_ne by congruence.
      rewrite Hp2, Hp1. rewrite lookup_app_l by (by eapply lookup_lt_Some).
      done. }
    split; [by rewrite Hups1, Hp1|].
    exists c. split.
    + rewrite list_lookup_insert_ne by (rewrite Hu1; lia).
      rewrite Hp2, Hp1. by apply list_lookup_middle.
    + split; [done|]. intros Hpar. by apply Hpid.
  - rewrite (bool_decide_eq_false_2 (Some r = Some "user")) by congruence.
    destruct (String.eqb_spec r "assistant") as [->|Hna].
    + rewrite !bool_decide_eq_true_2 by done.
      rewrite (bind_get_state _ _ s st1 Hs1 Hst1).
      destruct (lookup_lt_is_Some_2 (prompts w1) (chatgpt_prompt st1))
        as [c0 Hc0]; [rewrite Hp1, Hc1; lia|].
      assert (holds_turn_open node =
                match msg_end_turn m with Some None => true | _ => false end)
        as Hopen by (unfold holds_turn_open; by rewrite Hm).
      rewrite <- Hopen.
      assert (∃ w2, (if negb merge then Console success_b "ChatGPT:"
                     else ret tt) w1 = (Ok tt, w2) ∧
                    w2 = set_console
                           (λ o, o ++ if merge then []
                                      else [Con success_b "ChatGPT:" true]) w1)
        as (w2 & Hhdr & ->).
      { destruct merge; cbn; eexists; (split; [done|]);
          by rewrite ?set_console_nil. }
      rewrite (bind_ok _ _ _ _ _ Hhdr).
      rewrite Hp. cbn [or_raise head]. rewrite bind_ret.
      unfold Console. rewrite bind_modify.
      erewrite load_node_record_ok; [|exact Hc0|exact Hp].
      eexists _, st1. split; [done|]. cbn.
      split; [done|]. split; [done|]. split; [done|]. split; [done|]. split.
      { rewrite Hcon1. by rewrite <- !app_assoc. }
      split; [rewrite length_insert, Hp1; lia|]. split.
      { intros l c1 Hlu Hlc Hl. rewrite list_lookup_insert_ne by congruence.
        by rewrite Hp1. }
      done.
    + rewrite (bool_decide_eq_false_2 (Some r = Some "assistant")) by congruence.
      exists w1, st1. split; [done|].
      split; [done|]. split; [done|]. split; [done|]. split; [done|]. split.
      { by rewrite Hcon1, app_nil_r. }
      split; [by rewrite Hp1|]. split; [|done].
      intros l c1 _ _ Hl. by rewrite Hp1.
Qed.

(** ** The merge flag *)

(** The loop body on two nodes in a row (the part of C2 on consecutive
    assistant nodes holds as claimed).  For an assistant node [a]
    followed by a node [n], entered with any flag: after the text of [a]
    a blank line
    is printed unless [end_turn] of [a] is present and null.  When [n]
    is an assistant node and [a] keeps its turn open, the text of [n]
    follows the text of [a] directly, with neither blank line nor
    header.  When [n] is a user node, its "You:" header and text follow;
    the flag is not reset by it: the blank line after the user text is
    again left out when [a] keeps its turn open, and the flag returned
    is the one [a] has set. *)
Theorem merge_flag merge a n w :
  ready w → loadable a = true → loadable n = true →
  node_role a = Some "assistant" →
  let opened := holds_turn_open a in
  let sep := if opened then [] else [Builtin_print ""] in
  ∃ w' merge',
    (let* m1 := load_node merge a in load_node m1 n) w = (Ok merge', w') ∧
    console w' =
      console w ++
      (if merge then [] else [Con success_b "ChatGPT:" true]) ++
      [Con success (default "" (node_text a)) true] ++ sep ++
      (if bool_decide (node_role n = Some "user") then
         [Con info_b "You:" true; Con info (default "" (node_text n)) true] ++
         sep
       else if bool_decide (node_role n = Some "assistant") then
         (if opened then [] else [Con success_b "ChatGPT:" true]) ++
         [Con success (default "" (node_text n)) true] ++
         (if holds_turn_open n then [] else [Builtin_print ""])
       else []) ∧
    merge' =
      (if bool_decide (node_role n = Some "user") then opened
       else if bool_decide (node_role n = Some "assistant")
       then holds_turn_open n else opened).
Proof.
  intros (s & st & Hs & Hst & Hu & Hc) Ha Hn Hrole opened sep.
  destruct (load_node_spec merge a w s st Hs Hst Hu Hc Ha)
    as (w1 & st1 & Hrun1 & Hs1 & Hst1 & Hu1 & Hc1 & Hcon1 & Hlen1 & _).
  destruct (load_node_spec (next_merge merge a) n w1 s st1 Hs1 Hst1)
    as (w2 & st2 & Hrun2 & _ & _ & _ & _ & Hcon2 & _); [lia|lia|done|].
  assert (next_merge merge a = opened) as Hflag.
  { unfold next_merge. rewrite Hrole.
    rewrite bool_decide_eq_false_2 by done.
    by rewrite bool_decide_eq_true_2. }
  rewrite Hflag in *.
  exists w2, (next_merge opened n). split.
  { by rewrite (bind_ok _ _ _ _ _ Hrun1). }
  split; [|done].
  rewrite Hcon2, Hcon1. unfold rendering at 1. rewrite Hrole.
  rewrite bool_decide_eq_false_2 by done.
  rewrite bool_decide_eq_true_2 by done.
  fold opened. unfold rendering, blank. fold sep.
  by rewrite <- !app_assoc.
Qed.

Lemma merge_flag_witness :
  ∃ w' merge',
    (let* m1 := load_node false open_answer in load_node m1 next_answer)
      (new_chat []) = (Ok merge', w') ∧
    console w' =
      console (new_chat []) ++ [Con success_b "ChatGPT:" true] ++
      [Con success "Hel" true] ++ [] ++
      ([] ++ [Con success "lo" true] ++ [Builtin_print ""]) ∧
    merge' = false.
Proof.
  assert (ready (new_chat [])) as Hready.
  { exists 0, {| title := Some "New Chat"; conversation_id := None;
                 model_slug := Some "model-1"; user_prompt := 0;
                 chatgpt_prompt := 1; user_prompts := [];
                 edit_index := None |}.
    repeat split; vm_compute; lia. }
  exact (merge_flag false open_answer next_answer (new_chat [])
           Hready eq_refl eq_refl eq_refl).
Defined.

(** C2 (the code departs from the claim).  The flag is assigned only in
    the assistant branch of the loop (line 275), so a user node does not
    reset it.  On the nodes assistant "Hel" with [end_turn] null, user
    "Hi", assistant "lo": the user turn is printed without a blank line
    before or after it, the flag is still set after it, and the next
    assistant text appears without its "ChatGPT:" header, where the
    claim has the flag reset by the user turn and the boundary always
    separated. *)
Lemma merge_flag_counterexample :
  let r := (let* m1 := load_node false open_answer in
            load_node m1 next_question) (new_chat []) in
  r.1 = Ok true ∧
  console r.2 =
    [Con success_b "ChatGPT:" true; Con success "Hel" true;
     Con info_b "You:" true; Con info "Hi" true] ∧
  console (load_nodes false [open_answer; next_question; next_answer]
             (new_chat [])).2 =
    [Con success_b "ChatGPT:" true; Con success "Hel" true;
     Con info_b "You:" true; Con info "Hi" true;
     Con success "lo" true; Builtin_print ""].
Proof. vm_compute. repeat split. Qed.

(** ** The history rebuilt by the loader *)

Lemma users_cons node rest :
  users (node :: rest) =
    if bool_decide (node_role node = Some "user")
    then node :: users rest else users rest.
Proof.
  unfold users. rewrite filter_cons.
  destruct (decide (node_role node = Some "user")).
  - by rewrite bool_decide_eq_true_2.
  - by rewrite bool_decide_eq_false_2.
Qed.

(** The loop over loadable nodes returns normally and appends to the
    history one new prompt per user node, in order, each holding the
    text and the parent of its node. *)
Lemma load_nodes_spec nodes :
  ∀ merge w s st,
    self_state w = Some s → states w !! s = Some st →
    user_prompt st < length (prompts w) →
    chatgpt_prompt st < length (prompts w) →
    Forall (λ n, loadable n = true) nodes →
    ∃ w' st' locs,
      load_nodes merge nodes w = (Ok tt, w') ∧
      self_state w' = Some s ∧ states w' !! s = Some st' ∧
      user_prompts st' = user_prompts st ++ locs ∧
      (∀ l c0, l ≠ user_prompt st → l ≠ chatgpt_prompt st →
               prompts w !! l = Some c0 → prompts w' !! l = Some c0) ∧
      Forall2 (λ l n, (length (prompts w) ≤ l)%nat ∧
                      ∃ c, prompts w' !! l = Some c ∧
                           prompt c = node_text n ∧
                           (truthy_opt (node_parent n) = true →
                            parent_id c = node_parent n))
        locs (users nodes).
Proof.
  induction nodes as [|node rest IH]; intros merge w s st Hs Hst Hu Hc Hall.
  - exists w, st, []. cbn. rewrite app_nil_r.
    repeat (split; [done|]). constructor.
  - apply Forall_cons in Hall as [Hnode Hall].
    destruct (load_node_spec merge node w s st Hs Hst Hu Hc Hnode)
      as (w1 & st1 & Hrun1 & Hs1 & Hst1 & Hu1 & Hc1 & _ & Hlen1 & Hkeep1 & Huser).
    destruct (IH (next_merge merge node) w1 s st1 Hs1 Hst1)
      as (w2 & st2 & locs & Hrun2 & Hs2 & Hst2 & Hups2 & Hkeep2 & Hall2);
      [lia|lia|done|].
    rewrite Hu1, Hc1 in Hkeep2.
    cbn [load_nodes]. rewrite (bind_ok _ _ _ _ _ Hrun1).
    rewrite users_cons.
    assert (Forall2 (λ l n, (length (prompts w) ≤ l)%nat ∧
                      ∃ c, prompts w2 !! l = Some c ∧
                           prompt c = node_text n ∧
                           (truthy_opt (node_parent n) = true →
                            parent_id c = node_parent n))
              locs (users rest)) as Hall2'.
    { eapply Forall2_impl; [exact Hall2|]. cbn.
      intros l n [Hle Hrest]. split; [lia|done]. }
    destruct (bool_decide (node_role node = Some "user")).
    + destruct Huser as (Hups1 & c & Hc0 & Hprompt & Hparent).
      exists w2, st2, (length (prompts w) :: locs).
      split; [done|]. split; [done|]. split; [done|]. split.
      { rewrite Hups2, Hups1. by rewrite <- app_assoc. }
      split; [intros l c0 Hlu Hlc Hl; by apply Hkeep2, Hkeep1|].
      constructor; [|done]. split; [done|].
      exists c. split; [|done]. apply Hkeep2; [lia|lia|done].
    + exists w2, st2, locs.
      split; [done|]. split; [done|]. split; [done|].
      split; [by rewrite Hups2, Huser|].
      split; [intros l c0 Hlu Hlc Hl; by apply Hkeep2, Hkeep1|done].
Qed.

Lemma path_map_lookup nodes n :
  NoDup (node_id <$> nodes) → n ∈ nodes →
  path_map nodes !! node_id n = Some n.
Proof.
  intros Hnd Hin. unfold path_map. apply elem_of_list_to_map_1.
  - by rewrite <- list_fmap_compose.
  - apply list_elem_of_fmap. by exists n.
Qed.

Lemma path_map_size nodes :
  NoDup (node_id <$> nodes) → size (path_map nodes) = length nodes.
Proof.
  intros Hnd. unfold path_map. rewrite map_size_list_to_map.
  - by rewrite length_fmap.
  - by rewrite <- list_fmap_compose.
Qed.

Lemma leaf_cons root y pre : leaf root (y :: pre) = leaf y pre.
Proof. unfold leaf. rewrite last_cons. by destruct (last pre). Qed.

Lemma leaf_snoc root pre x : leaf root (pre ++ [x]) = x.
Proof. unfold leaf. by rewrite last_snoc. Qed.

Lemma linked_middle root pre x post :
  linked root (pre ++ x :: post) →
  node_parent x = Some (node_id (leaf root pre)) ∧
  truthy (node_id (leaf root pre)) = true.
Proof.
  revert root. induction pre as [|y pre IH]; intros root.
  - cbn. intros (? & ? & _). done.
  - cbn [app linked]. intros (_ & _ & H). rewrite leaf_cons. by apply IH.
Qed.

Lemma linked_truthy root path :
  linked root path →
  Forall (λ n, truthy_opt (node_parent n) = true) path.
Proof.
  revert root. induction path as [|n rest IH]; intros root; [done|].
  cbn. intros (Hp & Ht & H). constructor; [|by eapply IH].
  by rewrite Hp.
Qed.

(** The walk up a single path stops at the root with the nodes below it,
    root-most first. *)
Lemma walk_path root path w :
  single_path root path →
  ∀ pre post acc fuel,
    path = pre ++ post → length pre < fuel →
    walk fuel (path_map (root :: path)) (node_id (leaf root pre)) acc w =
      (Ok (pre ++ acc), w).
Proof.
  intros (Hroot & Hnd & Hlinked) pre.
  induction pre as [|x pre IH] using rev_ind;
    intros post acc fuel Hpath Hfuel;
    (destruct fuel as [|fuel]; [cbn in Hfuel; lia|]); cbn [walk].
  - change (leaf root []) with root.
    rewrite (path_map_lookup (root :: path) root Hnd) by apply list_elem_of_here.
    cbn [or_raise]. rewrite bind_ret. by rewrite Hroot.
  - rewrite leaf_snoc.
    rewrite (path_map_lookup (root :: path) x Hnd).
    2: { rewrite Hpath. apply list_elem_of_further.
         rewrite !elem_of_app. left. right. apply list_elem_of_here. }
    cbn [or_raise]. rewrite bind_ret.
    rewrite Hpath, <- app_assoc in Hlinked. cbn [app] in Hlinked.
    destruct (linked_middle _ _ _ _ Hlinked) as [Hparent Htruthy].
    rewrite Hparent. cbn [truthy_opt default]. rewrite Htruthy.
    unfold id. rewrite (IH (x :: post) (x :: acc) fuel).
    + by rewrite <- app_assoc.
    + by rewrite Hpath, <- app_assoc.
    + rewrite length_app in Hfuel. cbn in Hfuel. lia.
Qed.

(** C8 (as the code has it).  For a node map that is a single path from
    a parentless root to the current node, the loader returns normally;
    the walk collects the nodes below the root, root-most first, and
    leaves the root itself out; the history then holds one new prompt
    per user-role node below the root, in root-to-leaf order, each with
    the text and the parent of its node. *)
Theorem loader_round_trip chatgpt cid root path w :
  truthy cid = true →
  (defaults w).1 < length (prompts w) →
  (defaults w).2 < length (prompts w) →
  conv_mapping (chatgpt_get_conversation chatgpt (calls w) (token_key w) cid)
    = path_map (root :: path) →
  conv_current_node
    (chatgpt_get_conversation chatgpt (calls w) (token_key w) cid)
    = node_id (leaf root path) →
  single_path root path →
  Forall (λ n, loadable n = true) path →
  ∃ w' s st',
    load_conversation chatgpt (Some cid) w = (Ok tt, w') ∧
    self_state w' = Some s ∧ states w' !! s = Some st' ∧
    length (user_prompts st') = length (users path) ∧
    Forall2 (λ l n, ∃ c, prompts w' !! l = Some c ∧
                         prompt c = node_text n ∧
                         parent_id c = node_parent n)
      (user_prompts st') (users path).
Proof.
  intros Hcid Hdu Hdc Hmap Hcur Hpath Hload.
  pose proof Hpath as (Hroot & Hnd & Hlinked).
  unfold load_conversation. cbn [truthy_opt]. rewrite Hcid.
  cbn [negb]. change (default "" (Some cid)) with cid.
  rewrite (bind_ok _ _ _ _ _
             (eq_refl : State_init None (Some cid) None None None w =
                        (Ok (length (states w)), _))).
  rewrite bind_modify, bind_request.
  cbn [calls token_key set_calls set_self_state set_states default].
  rewrite Hmap, Hcur.
  rewrite path_map_size by done. cbn [length].
  erewrite bind_ok;
    [|apply (walk_path root path _ Hpath path []);
      [by rewrite app_nil_r | cbn; lia]].
  rewrite app_nil_r.
  set (s := length (states w)).
  set (st0 := {| title := None; conversation_id := Some cid;
                 model_slug := None; user_prompt := (defaults w).1;
                 chatgpt_prompt := (defaults w).2; user_prompts := [];
                 edit_index := None |}).
  erewrite bind_modify_state;
    [|reflexivity|by apply (list_lookup_middle (states w) [] st0)].
  erewrite (bind_ok (print_conversation_title _)); [|reflexivity].
  match goal with
  | |- ∃ _ _ _, load_nodes false path ?W = _ ∧ _ =>
      destruct (load_nodes_spec path false W s
                  (with_title (Some (conv_title
                     (chatgpt_get_conversation chatgpt (calls w)
                        (token_key w) cid))) st0))
        as (w' & st' & locs & Hrun & Hs' & Hst' & Hups & _ & Hall)
  end.
  { reflexivity. }
  { cbn. apply list_lookup_insert_eq. rewrite length_app. cbn. lia. }
  { exact Hdu. }
  { exact Hdc. }
  { exact Hload. }
  exists w', s, st'. split; [exact Hrun|]. split; [done|]. split; [done|].
  cbn in Hups. rewrite Hups.
  split; [by eapply Forall2_length|].
  pose proof (linked_truthy _ _ Hlinked) as Htruthy.
  assert (Forall (λ n, truthy_opt (node_parent n) = true) (users path))
    as Htruthy'.
  { apply Forall_forall. intros n Hn.
    apply list_elem_of_filter in Hn as [_ Hn].
    by eapply Forall_forall in Htruthy. }
  clear -Hall Htruthy'. revert Htruthy'.
  induction Hall as [|l n locs ns (_ & c & Hc & Hp & Hpar) _ IH];
    intros Ht; [constructor|].
  apply Forall_cons in Ht as [Hn Ht].
  constructor; [|by apply IH]. exists c. auto.
Qed.

Lemma loader_round_trip_witness :
  ∃ w' s st',
    load_conversation saved_remote (Some "conv-9") (boot []) = (Ok tt, w') ∧
    self_state w' = Some s ∧ states w' !! s = Some st' ∧
    length (user_prompts st') = length (users saved_path) ∧
    Forall2 (λ l n, ∃ c, prompts w' !! l = Some c ∧
                         prompt c = node_text n ∧
                         parent_id c = node_parent n)
      (user_prompts st') (users saved_path).
Proof.
  apply (loader_round_trip saved_remote "conv-9" saved_root saved_path
           (boot [])).
  - reflexivity.
  - vm_compute. lia.
  - vm_compute. lia.
  - reflexivity.
  - reflexivity.
  - split; [reflexivity|]. split.
    + apply (bool_decide_eq_true_1 _). vm_compute. reflexivity.
    + cbn. repeat split.
  - repeat constructor.
Defined.

(** C8 as stated fails when the root of the path is itself a user turn:
    the map below is a single path of alternating user and assistant
    nodes with one user-role node, and the loaded history is empty. *)
Lemma loader_round_trip_counterexample :
  let nodes := spoken_root :: spoken_path in
  let r := load_conversation spoken_remote (Some "conv-9") (boot []) in
  single_path spoken_root spoken_path ∧
  node_role <$> nodes = [Some "user"; Some "assistant"] ∧
  length (users nodes) = 1 ∧
  r.1 = Ok tt ∧
  (user_prompts <$> (self_state r.2 ≫= λ s, states r.2 !! s)) = Some [].
Proof.
  cbv zeta. split.
  { split; [reflexivity|]. split.
    - apply (bool_decide_eq_true_1 _). vm_compute. reflexivity.
    - cbn. repeat split. }
  vm_compute. repeat split.
Qed.

(** * Further properties of the reply-stream consumer *)

(** Well-formed events are consumed without exception and leave the
    world ready; an event whose processing raises at once then ends the
    loop with that exception, in the world the earlier events have
    left, whatever follows it in the stream. *)
Lemma print_reply_loop_abort pre ev exn :
  (∀ p w, print_reply_event p ev w = (Raise exn, w)) →
  ∀ p w,
    ready w → Forall (λ e, well_formed e = true) pre →
    ∃ w1,
      print_reply_loop p pre w = (Ok tt, w1) ∧
      ∀ post, print_reply_loop p (pre ++ ev :: post) w = (Raise exn, w1).
Proof.
  intros Hev. induction pre as [|e rest IH]; intros p w Hready Hwf.
  - exists w. split; [done|]. intros post. cbn.
    by rewrite (bind_raise _ _ _ _ _ (Hev p w)).
  - apply Forall_cons in Hwf as [He Hwf].
    destruct (well_formed_inv _ He) as (Herr & m & r & part & parts & Hm & Hr & Hp).
    destruct Hready as (s & st & Hs & Hst & Hu & Hc).
    destruct (lookup_lt_is_Some_2 _ _ Hu) as [up Hup].
    destruct (lookup_lt_is_Some_2 _ _ Hc) as [cp Hcp].
    pose proof (print_reply_event_ok p e w s st up cp m r part parts
                  Hs Hst Hup Hcp Herr Hm Hr Hp) as Hrun.
    destruct (ready_after_event s st up e m r part p w Hs Hst Hu Hc)
      as (Hs' & Hst' & Hlen').
    destruct (IH (advanced p r part) (after_event s st up e m r part p w))
      as (w1 & Hrest & Habort); [|done|].
    { exists s, (with_conversation_id (ev_conversation_id e) st).
      rewrite Hlen'. by cbn [with_conversation_id user_prompt chatgpt_prompt]. }
    exists w1. split.
    + cbn [print_reply_loop]. by rewrite (bind_ok _ _ _ _ _ Hrun).
    + intros post. cbn [app print_reply_loop].
      by rewrite (bind_ok _ _ _ _ _ Hrun).
Qed.

(** X1. An event with a truthy [error] aborts the stream: the consumer
    raises [Exception(error)]; the events before it have been folded
    into the state, the events after it are never looked at, and the
    closing [print] is not reached. *)
Theorem stream_error_aborts pre ev e w :
  ready w → Forall (λ e, well_formed e = true) pre →
  ev_error ev = Some e → truthy e = true →
  ∃ w1,
    print_reply_loop 0 pre w = (Ok tt, w1) ∧
    ∀ post,
      print_reply 200 (pre ++ ev :: post) w = (Raise (Exception_error e), w1).
Proof.
  intros Hready Hwf He Ht.
  destruct (print_reply_loop_abort pre ev (Exception_error e)) with (p := 0) (w := w)
    as (w1 & Hpre & Habort); [|done|done|].
  { intros p w0. unfold print_reply_event. rewrite He, Ht. done. }
  exists w1. split; [done|]. intros post. unfold print_reply.
  cbn [Z.eqb Pos.eqb negb]. by rewrite (bind_raise _ _ _ _ _ (Habort post)).
Qed.

Lemma stream_error_aborts_witness :
  ∃ w1,
    print_reply_loop 0 sample_stream (new_chat []) = (Ok tt, w1) ∧
    ∀ post,
      print_reply 200
        (sample_stream ++
         {| ev_error := Some "rate limited"; ev_message := None;
            ev_conversation_id := None |} :: post) (new_chat []) =
      (Raise (Exception_error "rate limited"), w1).
Proof.
  apply (stream_error_aborts sample_stream _ "rate limited" (new_chat [])).
  - exists 0, {| title := Some "New Chat"; conversation_id := None;
                 model_slug := Some "model-1"; user_prompt := 0;
                 chatgpt_prompt := 1; user_prompts := [];
                 edit_index := None |}.
    repeat split; vm_compute; lia.
  - repeat constructor.
  - reflexivity.
  - reflexivity.
Defined.

(** X2. An event without error and without message aborts the stream
    in the same way, with the "miss message property." exception. *)
Theorem stream_missing_message_aborts pre ev w :
  ready w → Forall (λ e, well_formed e = true) pre →
  truthy_opt (ev_error ev) = false → ev_message ev = None →
  ∃ w1,
    print_reply_loop 0 pre w = (Ok tt, w1) ∧
    ∀ post,
      print_reply 200 (pre ++ ev :: post) w = (Raise Exception_miss_message, w1).
Proof.
  intros Hready Hwf He Hm.
  destruct (print_reply_loop_abort pre ev Exception_miss_message) with (p := 0) (w := w)
    as (w1 & Hpre & Habort); [|done|done|].
  { intros p w0. unfold print_reply_event. rewrite Hm.
    destruct (ev_error ev) as [e|]; cbn in He; [rewrite He|]; done. }
  exists w1. split; [done|]. intros post. unfold print_reply.
  cbn [Z.eqb Pos.eqb negb]. by rewrite (bind_raise _ _ _ _ _ (Habort post)).
Qed.

Lemma stream_missing_message_aborts_witness :
  ∃ w1,
    print_reply_loop 0 sample_stream (new_chat []) = (Ok tt, w1) ∧
    ∀ post,
      print_reply 200
        (sample_stream ++
         {| ev_error := Some ""; ev_message := None;
            ev_conversation_id := None |} :: post) (new_chat []) =
      (Raise Exception_miss_message, w1).
Proof.
  apply (stream_missing_message_aborts sample_stream _ (new_chat [])).
  - exists 0, {| title := Some "New Chat"; conversation_id := None;
                 model_slug := Some "model-1"; user_prompt := 0;
                 chatgpt_prompt := 1; user_prompts := [];
                 edit_index := None |}.
    repeat split; vm_compute; lia.
  - repeat constructor.
  - reflexivity.
  - reflexivity.
Defined.

Lemma print_reply_loop_final s ev m part parts generator :
  last generator = Some ev → ev_message ev = Some m →
  msg_parts m = part :: parts →
  ∀ p w st up cp,
    self_state w = Some s → states w !! s = Some st →
    prompts w !! user_prompt st = Some up →
    prompts w !! chatgpt_prompt st = Some cp →
    user_prompt st ≠ chatgpt_prompt st →
    Forall (λ e, well_formed e = true) generator →
    ∃ w' st',
      print_reply_loop p generator w = (Ok tt, w') ∧
      states w' !! s = Some st' ∧
      conversation_id st' = ev_conversation_id ev ∧
      prompts w' !! chatgpt_prompt st = Some (replied up m part).
Proof.
  intros Hlast Hm Hparts.
  induction generator as [|e rest IH]; [done|].
  intros p w st up cp Hs Hst Hup Hcp Hne Hwf.
  apply Forall_cons in Hwf as [He Hwf].
  destruct (well_formed_inv _ He)
    as (Herr & m0 & r & part0 & parts0 & Hm0 & Hr & Hp0).
  pose proof (lookup_lt_Some _ _ _ Hup) as Hult.
  pose proof (lookup_lt_Some _ _ _ Hcp) as Hclt.
  pose proof (print_reply_event_ok p e w s st up cp m0 r part0 parts0
                Hs Hst Hup Hcp Herr Hm0 Hr Hp0) as Hrun.
  destruct (ready_after_event s st up e m0 r part0 p w Hs Hst Hult Hclt)
    as (Hs1 & Hst1 & Hlen1).
  cbn [print_reply_loop]. rewrite (bind_ok _ _ _ _ _ Hrun).
  assert (prompts (after_event s st up e m0 r part0 p w) !! chatgpt_prompt st
          = Some (replied up m0 part0)) as Hcp1.
  { cbn. destruct (String.eqb r "system").
    - rewrite list_lookup_insert_ne by done. by apply list_lookup_insert_eq.
    - by apply list_lookup_insert_eq. }
  destruct rest as [|e' rest].
  - cbn in Hlast. injection Hlast as <-.
    assert (m0 = m) as -> by congruence.
    assert (part0 = part) as -> by congruence.
    eexists _, _. split; [done|]. split; [exact Hst1|]. split; [done|].
    exact Hcp1.
  - rewrite last_cons_cons in Hlast.
    assert (∃ up1, prompts (after_event s st up e m0 r part0 p w)
                     !! user_prompt st = Some up1 ∧
                   message_id up1 = message_id up) as (up1 & Hup1 & Hmid).
    { cbn. destruct (String.eqb r "system").
      - eexists. split; [apply list_lookup_insert_eq; by rewrite length_insert|].
        by rewrite decide_False by done.
      - exists up. by rewrite list_lookup_insert_ne. }
    destruct (IH Hlast (advanced p r part0) _ _ up1 _ Hs1 Hst1 Hup1 Hcp1 Hne Hwf)
      as (w' & st' & Hloop & Hst' & Hcid & Hcp').
    exists w', st'. split; [done|]. split; [done|]. split; [done|].
    cbn [with_conversation_id chatgpt_prompt] in Hcp'. rewrite Hcp'.
    unfold replied. by rewrite Hmid.
Qed.

(** X3. When a well-formed stream has been consumed, the state holds the
    conversation id of its last event, and the assistant prompt holds
    the text and node id of that event's message with the user prompt's
    message id as parent. *)
Theorem stream_final_state generator ev m part parts w s st up cp :
  self_state w = Some s → states w !! s = Some st →
  prompts w !! user_prompt st = Some up →
  prompts w !! chatgpt_prompt st = Some cp →
  user_prompt st ≠ chatgpt_prompt st →
  Forall (λ e, well_formed e = true) generator →
  last generator = Some ev → ev_message ev = Some m →
  msg_parts m = part :: parts →
  ∃ w' st',
    print_reply 200 generator w = (Ok tt, w') ∧
    states w' !! s = Some st' ∧
    conversation_id st' = ev_conversation_id ev ∧
    prompts w' !! chatgpt_prompt st =
      Some {| prompt := Some part; parent_id := Some (message_id up);
              message_id := msg_id m |}.
Proof.
  intros Hs Hst Hup Hcp Hne Hwf Hlast Hm Hparts.
  destruct (print_reply_loop_final s ev m part parts generator Hlast Hm Hparts
              0 w st up cp Hs Hst Hup Hcp Hne Hwf)
    as (w' & st' & Hloop & Hst' & Hcid & Hcp').
  exists (set_console (λ c, c ++ [Builtin_print newline]) w'), st'.
  split; [|done]. unfold print_reply. cbn [Z.eqb Pos.eqb negb].
  by rewrite (bind_ok _ _ _ _ _ Hloop).
Qed.

Lemma stream_final_state_witness :
  ∃ w' st',
    print_reply 200 sample_stream (new_chat []) = (Ok tt, w') ∧
    states w' !! 0 = Some st' ∧
    conversation_id st' = Some "conv-1" ∧
    prompts w' !! 1 =
      Some {| prompt := Some "Hello"; parent_id := Some "uuid-1";
              message_id := "msg-1" |}.
Proof.
  assert (prompts (new_chat []) !! 0 =
            Some {| prompt := None; parent_id := Some "uuid-0";
                    message_id := "uuid-1" |}) as Hup
    by (vm_compute; reflexivity).
  assert (prompts (new_chat []) !! 1 =
            Some {| prompt := None; parent_id := Some "uuid-2";
                    message_id := "uuid-3" |}) as Hcp
    by (vm_compute; reflexivity).
  assert (states (new_chat []) !! 0 =
            Some {| title := Some "New Chat"; conversation_id := None;
                    model_slug := Some "model-1"; user_prompt := 0;
                    chatgpt_prompt := 1; user_prompts := [];
                    edit_index := None |}) as Hst
    by (vm_compute; reflexivity).
  refine (stream_final_state sample_stream
            (sample_event "msg-1" "assistant" "Hello")
            (sample_message "msg-1" "assistant" "Hello") "Hello" []
            (new_chat []) 0 _ _ _ eq_refl Hst Hup Hcp _ _ eq_refl eq_refl
            eq_refl).
  - cbn. lia.
  - repeat constructor.
Defined.

(** * Regenerating and continuing *)

Lemma keeps_write_state s P s' f :
  (∀ st, P st → P (f st)) → keeps (state_keeps s P) (write_state s' f).
Proof.
  intros Hf w (Hs & st & Hst & HP). unfold write_state, read_state, bind, get.
  destruct (states w !! s') as [st0|] eqn:E; cbn; [|by split; eauto].
  split; [done|]. destruct (decide (s' = s)) as [->|Hne].
  - exists (f st0). split.
    + apply list_lookup_insert_eq. by eapply lookup_lt_Some.
    + apply Hf. congruence.
  - exists st. split; [|done]. cbn. by rewrite list_lookup_insert_ne.
Qed.

Ltac steady :=
  repeat first
    [ apply keeps_ret | apply keeps_raise | apply keeps_get
    | apply keeps_or_raise
    | apply keeps_write_state; let H := fresh in intros ? H; exact H
    | apply keeps_bind; [|intros ?]
    | apply keeps_modify; let H := fresh in intros ? H; exact H
    | match goal with
      | |- keeps _ (match ?x with _ => _ end) => destruct x
      end
    | progress unfold deref, update, alloc, get_state, modify_state,
        self_state_loc, read_state, Console, Console_success_noend, print,
        gen_message_id, request, log_call, ChatPrompt_init ].

(** Whatever its outcome, the consumer leaves the current state the same
    object and changes at most its conversation id. *)
Lemma print_reply_steady s st status generator :
  keeps (state_keeps s (same_turns st)) (print_reply status generator).
Proof.
  unfold print_reply. destruct (negb (status =? 200)%Z).
  - destruct generator; steady.
  - apply keeps_bind; [|intros; steady].
    generalize 0. induction generator as [|ev rest IH]; intros p; cbn.
    + steady.
    + apply keeps_bind; [|intros; apply IH].
      unfold print_reply_event. steady.
Qed.

(** Whatever its outcome, the consumer sends nothing to the remote. *)
Lemma print_reply_silent (P : list RemoteCall → Prop) status generator :
  keeps (λ w, P (calls w)) (print_reply status generator).
Proof.
  unfold print_reply. destruct (negb (status =? 200)%Z).
  - destruct generator; steady.
  - apply keeps_bind; [|intros; steady].
    generalize 0. induction generator as [|ev rest IH]; intros p; cbn.
    + steady.
    + apply keeps_bind; [|intros; apply IH].
      unfold print_reply_event. steady.
Qed.

Section Again.

Variable chatgpt : Remote.

(** X4. Whatever the remote answers and however the stream ends,
    [regenerate] and [continue] leave the history of user prompts, the
    edit index, the title, the model and the two prompt references of
    the current state as they were. *)
Theorem regenerate_continue_frame w s st :
  self_state w = Some s → states w !! s = Some st →
  state_keeps s (same_turns st) (regenerate_reply chatgpt s w).2 ∧
  state_keeps s (same_turns st) (continue chatgpt s w).2.
Proof.
  intros Hs Hst.
  assert (state_keeps s (same_turns st) w) as Hw.
  { split; [done|]. exists st. split; [done|]. by repeat split. }
  split.
  - assert (keeps (state_keeps s (same_turns st))
              (regenerate_reply chatgpt s)) as Hk.
    { unfold regenerate_reply. steady. apply print_reply_steady. }
    by apply Hk.
  - assert (keeps (state_keeps s (same_turns st)) (continue chatgpt s)) as Hk.
    { unfold continue. steady. apply print_reply_steady. }
    by apply Hk.
Qed.

(** X5. On an established conversation [regenerate] sends exactly one
    request, for the text and ids of the current user prompt, and
    [continue] exactly one request keyed by the message id of the
    current assistant prompt; neither asks for a title, and this holds
    whether or not the reply stream is consumed to its end. *)
Theorem regenerate_continue_requests w s st up cp :
  states w !! s = Some st →
  truthy_opt (conversation_id st) = true →
  prompts w !! user_prompt st = Some up →
  prompts w !! chatgpt_prompt st = Some cp →
  calls (regenerate_reply chatgpt s w).2 =
    calls w ++ [call_regenerate_reply (prompt up) (model_slug st)
                  (conversation_id st) (message_id up) (parent_id up)] ∧
  calls (continue chatgpt s w).2 =
    calls w ++ [call_goon (model_slug st) (message_id cp)
                  (conversation_id st)].
Proof.
  intros Hst Hcid Hup Hcp. split.
  - unfold regenerate_reply.
    rewrite (bind_ok _ _ _ _ _ (read_state_ok _ _ _ Hst)), Hcid. cbn [negb].
    rewrite (bind_deref _ _ _ _ Hup), bind_request.
    unfold print, Console. rewrite !bind_modify.
    match goal with
    | |- calls (print_reply ?a ?b ?W).2 = ?C =>
        apply (print_reply_silent (λ l, l = C) a b W)
    end.
    done.
  - unfold continue.
    rewrite (bind_ok _ _ _ _ _ (read_state_ok _ _ _ Hst)), Hcid. cbn [negb].
    rewrite (bind_deref _ _ _ _ Hcp), bind_request.
    unfold print, Console. rewrite !bind_modify.
    match goal with
    | |- calls (print_reply ?a ?b ?W).2 = ?C =>
        apply (print_reply_silent (λ l, l = C) a b W)
    end.
    done.
Qed.

End Again.

Lemma established_chat_state :
  states (established_chat []) !! 0 =
    Some {| title := Some "A title"; conversation_id := Some "conv-1";
            model_slug := Some "model-1"; user_prompt := 2;
            chatgpt_prompt := 1; user_prompts := [2]; edit_index := None |}.
Proof. vm_compute. reflexivity. Qed.

Lemma established_chat_user :
  prompts (established_chat []) !! 2 =
    Some {| prompt := Some "hi"; parent_id := Some "sys-1";
            message_id := "uuid-4" |}.
Proof. vm_compute. reflexivity. Qed.

Lemma established_chat_assistant :
  prompts (established_chat []) !! 1 =
    Some {| prompt := Some "Hello"; parent_id := Some "uuid-4";
            message_id := "msg-1" |}.
Proof. vm_compute. reflexivity. Qed.

Lemma regenerate_continue_frame_witness :
  let st := {| title := Some "A title"; conversation_id := Some "conv-1";
               model_slug := Some "model-1"; user_prompt := 2;
               chatgpt_prompt := 1; user_prompts := [2];
               edit_index := None |} in
  state_keeps 0 (same_turns st)
    (regenerate_reply other_remote 0 (established_chat [])).2 ∧
  state_keeps 0 (same_turns st)
    (continue other_remote 0 (established_chat [])).2.
Proof.
  intros st.
  assert (self_state (established_chat []) = Some 0) as Hs
    by (vm_compute; reflexivity).
  exact (regenerate_continue_frame other_remote (established_chat []) 0 st
           Hs established_chat_state).
Defined.

Lemma regenerate_continue_requests_witness :
  calls (regenerate_reply other_remote 0 (established_chat [])).2 =
    calls (established_chat []) ++
    [call_regenerate_reply (Some "hi") (Some "model-1") (Some "conv-1")
       "uuid-4" (Some "sys-1")] ∧
  calls (continue other_remote 0 (established_chat [])).2 =
    calls (established_chat []) ++
    [call_goon (Some "model-1") "msg-1" (Some "conv-1")].
Proof.
  exact (regenerate_continue_requests other_remote (established_chat []) 0
           _ _ _ established_chat_state eq_refl established_chat_user
           established_chat_assistant).
Defined.

(** * Further properties of a turn *)

Ltac steady_by tac :=
  repeat first
    [ apply keeps_ret | apply keeps_raise | apply keeps_get
    | apply keeps_or_raise
    | apply keeps_write_state; tac
    | apply keeps_bind; [|intros ?]
    | apply keeps_modify; let H := fresh in intros ? H; exact H
    | match goal with
      | |- keeps _ (match ?x with _ => _ end) => destruct x
      end
    | progress unfold deref, update, alloc, get_state, modify_state,
        self_state_loc, read_state, Console, Console_success_noend, print,
        gen_message_id, request, log_call, ChatPrompt_init ].

(** The consumer keeps every property of the current state that does
    not depend on the conversation id. *)
Lemma print_reply_keeps_state s (P : State → Prop) status generator :
  (∀ c st, P st → P (with_conversation_id c st)) →
  keeps (state_keeps s P) (print_reply status generator).
Proof.
  intros HP. unfold print_reply. destruct (negb (status =? 200)%Z).
  - destruct generator; steady.
  - apply keeps_bind; [|intros; steady].
    generalize 0. induction generator as [|ev rest IH]; intros p; cbn.
    + steady.
    + apply keeps_bind; [|intros; apply IH].
      unfold print_reply_event. steady_by ltac:(intros ? ?; by apply HP).
Qed.

Section Turn_more.

Variable chatgpt : Remote.

(** The exchange never replaces the current user prompt object. *)
Lemma talk_exchange_keeps_user_prompt s l first_prompt text :
  keeps (state_keeps s (λ st, user_prompt st = l))
    (talk_exchange chatgpt first_prompt text).
Proof.
  unfold talk_exchange, talk_title.
  steady_by ltac:(let H := fresh in intros ? H; exact H).
  apply print_reply_keeps_state. by intros c st.
Qed.

(** The preparation of a turn in edit mode succeeds when the selected
    entry exists. *)
Lemma talk_prepare_edit_ok st text w s idx l old :
  self_state w = Some s → states w !! s = Some st →
  edit_index st = Some (S idx) →
  user_prompts st !! idx = Some l → prompts w !! l = Some old →
  ∃ w1, talk_prepare st text w = (Ok tt, w1).
Proof.
  intros Hs Hst Hedit Hl Hold. unfold talk_prepare. rewrite Hedit, Hl.
  cbn [or_raise]. rewrite bind_ret, (bind_deref _ _ _ _ Hold).
  destruct (ChatPrompt_init_spec (Some text) (parent_id old) w)
    as (c & w2 & Hinit & _ & _ & _ & Hstates & Hself & _).
  rewrite (bind_ok _ _ _ _ _ Hinit).
  rewrite <- Hself in Hs. rewrite <- Hstates in Hst.
  pose proof (lookup_lt_Some _ _ _ Hst) as Hlt.
  erewrite bind_modify_state; [|exact Hs|exact Hst].
  erewrite bind_modify_state;
    [|exact Hs|cbn; by apply list_lookup_insert_eq].
  erewrite modify_state_ok;
    [|exact Hs|cbn; apply list_lookup_insert_eq; by rewrite length_insert].
  eauto.
Qed.

(** X6. A turn prepared in edit mode whose request is answered with a
    status other than 200 raises; by then the history has already been
    cut before the edited entry and the edit index cleared, the new
    prompt is not appended, and only the talk request has been sent. *)
Theorem failed_edit_truncates text w s st k l old :
  self_state w = Some s → states w !! s = Some st →
  edit_index st = Some k → (1 ≤ k)%nat →
  user_prompts st !! (k - 1) = Some l →
  prompts w !! l = Some old → truthy_opt (parent_id old) = true →
  let c := call_talk text (model_slug st) (uuid_of (uuid_next w))
             (parent_id old) (conversation_id st) in
  let reply := chatgpt_talk chatgpt (calls w) (token_key w) text
                 (model_slug st) (uuid_of (uuid_next w)) (parent_id old)
                 (conversation_id st) in
  reply.1 ≠ 200%Z →
  ∃ w' st',
    talk chatgpt text w =
      (Raise match reply.2 with
             | [] => StopIteration
             | first :: _ => Exception_status reply.1 first
             end, w') ∧
    states w' !! s = Some st' ∧
    user_prompts st' = take (k - 1) (user_prompts st) ∧
    edit_index st' = None ∧
    calls w' = calls w ++ [c].
Proof.
  intros Hs Hst Hedit Hk Hl Hold Htruthy c reply Hstatus.
  destruct k as [|idx]; [lia|]. replace (S idx - 1) with idx in * by lia.
  destruct (talk_prepare_edit_ok st text
              (set_console (λ o, o ++ [Con success_b "ChatGPT:" true]) w)
              s idx l old Hs Hst Hedit Hl Hold) as [w1 Hprep].
  pose proof (talk_prepare_inv _ _ _ _ s Hprep Hs Hst)
    as (c1 & st1 & Hp & Hc & Hs1 & Hst1 & Hu1 & Hc1 & Hcid & Hmodel & Hcalls
        & Htok & Hbranch).
  rewrite Hedit in Hbranch.
  destruct Hbranch as (Hups & Hedit1 & l' & old' & Hl' & Hold' & Hpid).
  cbn in Hl', Hold', Hpid, Hcalls, Htok, Hp, Hu1.
  assert (l' = l) as -> by congruence.
  assert (old' = old) as -> by congruence.
  destruct (Hpid Htruthy) as [Hparent Hmid].
  assert (prompts w1 !! user_prompt st1 = Some c1) as Hup.
  { rewrite Hp, Hu1. by apply list_lookup_middle. }
  unfold talk, Console. rewrite bind_modify.
  erewrite bind_get_state; [|exact Hs|exact Hst].
  rewrite (bind_ok _ _ _ _ _ Hprep).
  unfold talk_exchange.
  rewrite (bind_get_state _ _ s st1 Hs1 Hst1), (bind_deref _ _ _ _ Hup).
  rewrite bind_request.
  rewrite Hcalls, Htok, Hmodel, Hmid, Hparent, Hcid. fold reply.
  unfold print_reply at 1.
  destruct (Z.eqb_spec reply.1 200) as [E|_]; [done|]. cbn [negb].
  eexists _, st1. split.
  { destruct reply.2; reflexivity. }
  destruct reply.2; cbn; rewrite Hcalls; done.
Qed.

End Turn_more.

Section Turn_append.

Variable chatgpt : Remote.

(** Without a pending edit the new user prompt hangs below the message
    id of the current assistant prompt. *)
Lemma talk_prepare_append_inv st text w w1 last :
  talk_prepare st text w = (Ok tt, w1) →
  edit_index st = None ∨ edit_index st = Some 0 →
  prompts w !! chatgpt_prompt st = Some last →
  truthy (message_id last) = true →
  prompts w1 =
    prompts w ++ [{| prompt := Some text;
                     parent_id := Some (message_id last);
                     message_id := uuid_of (uuid_next w) |}].
Proof.
  intros H Hedit Hlast Htruthy. unfold talk_prepare in H.
  assert ((let* last := deref (chatgpt_prompt st) in
           let* new := ChatPrompt_init (Some text) (Some (message_id last))
                         None in
           modify_state (with_user_prompt new)) w = (Ok tt, w1)) as H'
    by (destruct Hedit as [E|E]; by rewrite E in H).
  clear H. rewrite (bind_deref _ _ _ _ Hlast) in H'.
  destruct (ChatPrompt_init_spec (Some text) (Some (message_id last)) w)
    as (c & w2 & Hinit & Hp & Hc & Hpid & _).
  rewrite (bind_ok _ _ _ _ _ Hinit) in H'.
  apply modify_state_inv in H' as (s & st0 & _ & _ & ->).
  cbn. rewrite Hp. destruct (Hpid Htruthy) as [Hparent Hmid].
  destruct c as [cp cpar cmid]. cbn in *. by subst.
Qed.

(** X7. Without a pending edit (the index unset, or zero, which Python
    reads as false) a [talk] that returns normally appends one entry to
    the history and clears nothing; the entry is the very object that
    [self.state.user_prompt] now refers to; it holds the text and a
    fresh message id, and its parent is the message id of the assistant
    prompt of the previous turn, unless the reply carried system events. *)
Theorem talk_appends text w w' s st last :
  self_state w = Some s → states w !! s = Some st →
  edit_index st = None ∨ edit_index st = Some 0 →
  prompts w !! chatgpt_prompt st = Some last →
  truthy (message_id last) = true →
  talk chatgpt text w = (Ok tt, w') →
  let reply := chatgpt_talk chatgpt (calls w) (token_key w) text
                 (model_slug st) (uuid_of (uuid_next w))
                 (Some (message_id last)) (conversation_id st) in
  ∃ st' new,
    states w' !! s = Some st' ∧
    user_prompts st' = user_prompts st ++ [new] ∧
    user_prompt st' = new ∧ edit_index st' = edit_index st ∧
    prompts w' !! new =
      Some {| prompt := Some text;
              parent_id := reparented (Some (message_id last)) reply.2;
              message_id := uuid_of (uuid_next w) |}.
Proof.
  intros Hs Hst Hedit Hlast Htruthy H reply.
  pose proof (lookup_lt_Some _ _ _ Hlast) as Hclt.
  unfold talk, Console in H. rewrite bind_modify in H.
  erewrite bind_get_state in H; [|exact Hs|exact Hst].
  apply bind_inv_ok in H as ([] & w1 & Hprep & H).
  pose proof (talk_prepare_append_inv _ _ _ _ _ Hprep Hedit Hlast Htruthy)
    as Hp'.
  apply (talk_prepare_inv _ _ _ _ s) in Hprep
    as (c & st1 & Hp & Hc & Hs1 & Hst1 & Hu1 & Hc1 & Hcid & Hmodel & Hcalls
        & Htok & Hbranch); [|exact Hs|exact Hst].
  cbn in Hp', Hp, Hu1, Hcalls, Htok.
  rewrite Hp in Hp'. apply app_inj_tail in Hp' as [_ ->].
  assert (user_prompts st1 = user_prompts st ∧ edit_index st1 = edit_index st)
    as [Hups Hedit1].
  { destruct Hedit as [E|E]; rewrite E in Hbranch; by rewrite E. }
  assert (prompts w1 !! user_prompt st1 =
            Some {| prompt := Some text;
                    parent_id := Some (message_id last);
                    message_id := uuid_of (uuid_next w) |}) as Hup.
  { rewrite Hp, Hu1. by apply list_lookup_middle. }
  pose proof (talk_exchange_keeps_user_prompt chatgpt s (user_prompt st1)
                (negb (truthy_opt (conversation_id st))) text w1) as Hkeep.
  assert ((talk_exchange chatgpt (negb (truthy_opt (conversation_id st)))
             text w1).2 = w') as Hw' by (by rewrite H).
  rewrite Hw' in Hkeep. clear Hw'.
  destruct Hkeep as (_ & st'' & Hst'' & Hsame).
  { split; [done|]. by exists st1. }
  apply (talk_exchange_inv _ _ _ _ _ s st1
           {| prompt := Some text; parent_id := Some (message_id last);
              message_id := uuid_of (uuid_next w) |}) in H
    as (st' & _ & Hst' & Hups' & Hedit' & _ & _ & Huser & _); [|done..].
  cbn in Hst''. assert (st'' = st') as -> by congruence.
  cbn [message_id parent_id] in Huser.
  rewrite Hcalls, Htok, Hmodel, Hcid in Huser. fold reply in Huser.
  exists st', (user_prompt st1).
  split; [done|]. split; [by rewrite Hups', Hups|].
  split; [done|]. split; [congruence|].
  apply Huser. rewrite Hu1, Hc1. lia.
Qed.

(** X8. The last history entry and the current user prompt being one
    object (as [talk] leaves them), a [regenerate] that returns
    normally and whose reply carries a system event changes the parent
    recorded in that history entry to the id of that event. *)
Theorem regenerate_reparents_history w w' s st up cp :
  self_state w = Some s → states w !! s = Some st →
  truthy_opt (conversation_id st) = true →
  last (user_prompts st) = Some (user_prompt st) →
  prompts w !! user_prompt st = Some up →
  prompts w !! chatgpt_prompt st = Some cp →
  user_prompt st ≠ chatgpt_prompt st →
  regenerate_reply chatgpt s w = (Ok tt, w') →
  let reply := chatgpt_regenerate_reply chatgpt (calls w) (token_key w)
                 (prompt up) (model_slug st) (conversation_id st)
                 (message_id up) (parent_id up) in
  ∃ st' entry,
    states w' !! s = Some st' ∧
    user_prompts st' = user_prompts st ∧
    last (user_prompts st') = Some entry ∧
    prompts w' !! entry =
      Some (with_parent_id (reparented (parent_id up) reply.2) up).
Proof.
  intros Hs Hst Hcid Hlast Hup Hcp Hne H reply.
  pose proof (regenerate_continue_frame chatgpt w s st Hs Hst) as [Hframe _].
  assert ((regenerate_reply chatgpt s w).2 = w') as Hw' by (by rewrite H).
  rewrite Hw' in Hframe. clear Hw'.
  destruct Hframe as (_ & st' & Hst' & Hsame). destruct Hsame as (Hups & _).
  unfold regenerate_reply in H.
  rewrite (bind_ok _ _ _ _ _ (read_state_ok _ _ _ Hst)), Hcid in H.
  cbn [negb] in H.
  rewrite (bind_deref _ _ _ _ Hup), bind_request in H. fold reply in H.
  unfold print, Console in H. rewrite !bind_modify in H.
  apply print_reply_inv in H as (_ & w2 & Hloop & ->).
  apply (print_reply_loop_inv _ _ _ _ s st) in Hloop
    as (_ & _ & _ & _ & _ & _ & _ & Huser & _); [|exact Hs|exact Hst].
  exists st', (user_prompt st). split; [done|]. split; [done|].
  split; [by rewrite Hups|]. cbn. by apply Huser.
Qed.

End Turn_append.

Lemma edit_pending_state :
  states (edit_pending []) !! 0 =
    Some {| title := Some "A title"; conversation_id := Some "conv-1";
            model_slug := Some "model-1"; user_prompt := 2;
            chatgpt_prompt := 1; user_prompts := [2];
            edit_index := Some 1 |}.
Proof. vm_compute. reflexivity. Qed.

Lemma edit_pending_user :
  prompts (edit_pending []) !! 2 =
    Some {| prompt := Some "hi"; parent_id := Some "sys-1";
            message_id := "uuid-4" |}.
Proof. vm_compute. reflexivity. Qed.

Lemma failed_edit_truncates_witness :
  ∃ w' st',
    talk failing_remote "again" (edit_pending []) =
      (Raise (Exception_status 500
                {| ev_error := Some "server error"; ev_message := None;
                   ev_conversation_id := None |}), w') ∧
    states w' !! 0 = Some st' ∧
    user_prompts st' = take (1 - 1) [2] ∧
    edit_index st' = None ∧
    calls w' =
      calls (edit_pending []) ++
      [call_talk "again" (Some "model-1")
         (uuid_of (uuid_next (edit_pending []))) (Some "sys-1")
         (Some "conv-1")].
Proof.
  assert (self_state (edit_pending []) = Some 0) as Hs
    by (vm_compute; reflexivity).
  refine (failed_edit_truncates failing_remote "again" (edit_pending []) 0
            _ 1 2 _ Hs edit_pending_state eq_refl (le_n 1) eq_refl
            edit_pending_user eq_refl _).
  cbn. lia.
Defined.

Lemma talk_appends_witness :
  ∃ st' new,
    states (established_chat []) !! 0 = Some st' ∧
    user_prompts st' = [] ++ [new] ∧
    user_prompt st' = new ∧ edit_index st' = None ∧
    prompts (established_chat []) !! new =
      Some {| prompt := Some "hi";
              parent_id := reparented (Some "uuid-3") sample_stream;
              message_id := uuid_of (uuid_next (new_chat [])) |}.
Proof.
  assert (self_state (new_chat []) = Some 0) as Hs
    by (vm_compute; reflexivity).
  assert (states (new_chat []) !! 0 =
            Some {| title := Some "New Chat"; conversation_id := None;
                    model_slug := Some "model-1"; user_prompt := 0;
                    chatgpt_prompt := 1; user_prompts := [];
                    edit_index := None |}) as Hst
    by (vm_compute; reflexivity).
  assert (prompts (new_chat []) !! 1 =
            Some {| prompt := None; parent_id := Some "uuid-2";
                    message_id := "uuid-3" |}) as Hlast
    by (vm_compute; reflexivity).
  assert (talk sample_remote "hi" (new_chat []) =
            (Ok tt, established_chat [])) as Hrun
    by (vm_compute; reflexivity).
  exact (talk_appends sample_remote "hi" (new_chat []) (established_chat [])
           0 _ _ Hs Hst (or_introl eq_refl) Hlast eq_refl Hrun).
Defined.

Lemma regenerate_reparents_history_witness :
  ∃ st' entry,
    states (regenerate_reply other_remote 0 (established_chat [])).2 !! 0
      = Some st' ∧
    user_prompts st' = [2] ∧
    last (user_prompts st') = Some entry ∧
    prompts (regenerate_reply other_remote 0 (established_chat [])).2 !! entry
      = Some (with_parent_id
                (reparented (Some "sys-1")
                   (chatgpt_regenerate_reply other_remote
                      (calls (established_chat []))
                      (token_key (established_chat [])) (Some "hi")
                      (Some "model-1") (Some "conv-1") "uuid-4"
                      (Some "sys-1")).2)
                {| prompt := Some "hi"; parent_id := Some "sys-1";
                   message_id := "uuid-4" |}).
Proof.
  assert (self_state (established_chat []) = Some 0) as Hs
    by (vm_compute; reflexivity).
  assert (regenerate_reply other_remote 0 (established_chat []) =
            (Ok tt, (regenerate_reply other_remote 0 (established_chat [])).2))
    as Hrun by (vm_compute; reflexivity).
  refine (regenerate_reparents_history other_remote (established_chat []) _ 0
            _ _ _ Hs established_chat_state eq_refl eq_refl
            established_chat_user established_chat_assistant _ Hrun).
  cbn. lia.
Defined.

(** * Further properties of prompts, titles and the loader *)

(** X9. A constructed prompt always has a non-empty parent id and a
    non-empty message id: an id passed in is kept when it is non-empty,
    and [None] or the empty string is replaced by a freshly generated
    one; the text is stored as given. *)
Theorem ChatPrompt_init_ids text pid mid w :
  ∃ c w',
    ChatPrompt_init text pid mid w = (Ok (length (prompts w)), w') ∧
    prompts w' = prompts w ++ [c] ∧ prompt c = text ∧
    truthy_opt (parent_id c) = true ∧ truthy (message_id c) = true ∧
    (truthy_opt pid = true → parent_id c = pid) ∧
    (truthy_opt mid = true → mid = Some (message_id c)) ∧
    (truthy_opt pid = false → truthy_opt mid = false →
     ∃ n, (uuid_next w ≤ n)%nat ∧
          parent_id c = Some (uuid_of n) ∧ message_id c = uuid_of (S n) ∧
          uuid_next w' = S (S n)).
Proof.
  unfold ChatPrompt_init, bind, gen_message_id, alloc, get, modify, ret.
  destruct (truthy_opt pid) eqn:Hp; destruct mid as [m|]; cbn;
    try destruct (truthy m) eqn:Hm; cbn;
    eexists _, _; (split; [done|]); cbn;
    repeat split; try done; try (intros; exists (uuid_next w); done).
Qed.

Section Titles_and_loading.

Variable chatgpt : Remote.

(** X10. On an established conversation a new title of at most 64
    characters is sent to the remote in exactly one request, and the
    title of the state becomes the new one if and only if the remote
    confirms; otherwise every state is left as it was. *)
Theorem rename_needs_confirmation state st new_title rest w :
  states w !! state = Some st →
  truthy_opt (conversation_id st) = true →
  inputs w = new_title :: rest →
  (String.length new_title ≤ 64)%nat →
  let confirmed :=
    chatgpt_set_conversation_title chatgpt (calls w) (token_key w)
      (conversation_id st) new_title in
  let r := set_conversation_title chatgpt state w in
  r.1 = Ok tt ∧ inputs r.2 = rest ∧ prompts r.2 = prompts w ∧
  calls r.2 =
    calls w ++ [call_set_conversation_title (conversation_id st) new_title] ∧
  states r.2 =
    if confirmed then <[state := with_title (Some new_title) st]> (states w)
    else states w.
Proof.
  intros Hst Hcid Hin Hlen confirmed r. subst r.
  unfold set_conversation_title.
  rewrite (bind_ok _ _ _ _ _ (read_state_ok _ _ _ Hst)), Hcid. cbn [negb].
  assert (Prompt_ask w = (Ok new_title, set_inputs rest w)) as Hask
    by (unfold Prompt_ask, bind, get; by rewrite Hin).
  rewrite (bind_ok _ _ _ _ _ Hask).
  destruct (Nat.ltb_spec 64 (String.length new_title)) as [?|_]; [lia|].
  rewrite bind_request.
  cbn [calls token_key set_inputs]. fold confirmed.
  destruct confirmed.
  - erewrite (bind_ok (write_state _ _)); [|by apply write_state_ok].
    done.
  - done.
Qed.

(** X11. When the current node is missing from the mapping the loader
    raises [KeyError]; by then [self.state] has been replaced by a new
    state that has the requested conversation id and nothing else, and
    the one request has been sent. *)
Theorem load_missing_node cid w :
  truthy cid = true →
  let result := chatgpt_get_conversation chatgpt (calls w) (token_key w) cid in
  conv_mapping result !! conv_current_node result = None →
  ∃ w',
    load_conversation chatgpt (Some cid) w =
      (Raise (KeyError (conv_current_node result)), w') ∧
    self_state w' = Some (length (states w)) ∧
    states w' =
      states w ++ [{| title := None; conversation_id := Some cid;
                      model_slug := None; user_prompt := (defaults w).1;
                      chatgpt_prompt := (defaults w).2; user_prompts := [];
                      edit_index := None |}] ∧
    prompts w' = prompts w ∧ console w' = console w ∧
    calls w' = calls w ++ [call_get_conversation cid].
Proof.
  intros Hcid result Hmiss.
  unfold load_conversation. cbn [truthy_opt]. rewrite Hcid.
  cbn [negb]. change (default "" (Some cid)) with cid.
  rewrite (bind_ok _ _ _ _ _
             (eq_refl : State_init None (Some cid) None None None w =
                        (Ok (length (states w)), _))).
  rewrite bind_modify, bind_request.
  cbn [calls token_key set_calls set_self_state set_states default].
  fold result. cbn [walk]. rewrite Hmiss. cbn [or_raise].
  eexists. split; [reflexivity|]. done.
Qed.

(** X12. When every node of the mapping has a parent that is itself a
    key of the mapping (as on a cycle), the walk up the parent links
    does not return, however long it is run, and so neither does the
    loader. *)
Theorem load_cycle_diverges cid w :
  truthy cid = true →
  let result := chatgpt_get_conversation chatgpt (calls w) (token_key w) cid in
  is_Some (conv_mapping result !! conv_current_node result) →
  (∀ k n, conv_mapping result !! k = Some n →
          truthy_opt (node_parent n) = true ∧
          is_Some (conv_mapping result !! default "" (node_parent n))) →
  (∀ fuel acc w0,
     (walk fuel (conv_mapping result) (conv_current_node result) acc w0).1
       = Raise Diverges) ∧
  (load_conversation chatgpt (Some cid) w).1 = Raise Diverges.
Proof.
  intros Hcid result Hcur Hclosed.
  assert (∀ fuel cur acc w0,
            is_Some (conv_mapping result !! cur) →
            walk fuel (conv_mapping result) cur acc w0 = (Raise Diverges, w0))
    as Hwalk.
  { induction fuel as [|fuel IH]; intros cur acc w0 [n Hn]; [done|].
    cbn [walk]. rewrite Hn. cbn [or_raise]. rewrite bind_ret.
    destruct (Hclosed _ _ Hn) as [Ht Hp]. rewrite Ht. by apply IH. }
  split.
  - intros fuel acc w0. by rewrite Hwalk.
  - unfold load_conversation. cbn [truthy_opt]. rewrite Hcid.
    cbn [negb]. change (default "" (Some cid)) with cid.
    rewrite (bind_ok _ _ _ _ _
               (eq_refl : State_init None (Some cid) None None None w =
                          (Ok (length (states w)), _))).
    rewrite bind_modify, bind_request.
    cbn [calls token_key set_calls set_self_state set_states default].
    fold result. erewrite bind_raise; [done|]. by apply Hwalk.
Qed.

End Titles_and_loading.

Lemma rename_needs_confirmation_witness :
  let w := established_chat ["Renamed"] in
  let st := {| title := Some "A title"; conversation_id := Some "conv-1";
               model_slug := Some "model-1"; user_prompt := 2;
               chatgpt_prompt := 1; user_prompts := [2];
               edit_index := None |} in
  let confirmed :=
    chatgpt_set_conversation_title sample_remote (calls w) (token_key w)
      (conversation_id st) "Renamed" in
  let r := set_conversation_title sample_remote 0 w in
  r.1 = Ok tt ∧ inputs r.2 = [] ∧ prompts r.2 = prompts w ∧
  calls r.2 =
    calls w ++ [call_set_conversation_title (conversation_id st) "Renamed"] ∧
  states r.2 =
    if confirmed then <[0 := with_title (Some "Renamed") st]> (states w)
    else states w.
Proof.
  intros w st.
  assert (states w !! 0 = Some st) as Hst by (vm_compute; reflexivity).
  assert (inputs w = ["Renamed"]) as Hin by (vm_compute; reflexivity).
  assert (String.length "Renamed" ≤ 64)%nat as Hlen by (vm_compute; lia).
  exact (rename_needs_confirmation sample_remote 0 st "Renamed" [] w
           Hst eq_refl Hin Hlen).
Defined.

Lemma load_missing_node_witness :
  ∃ w',
    load_conversation sample_remote (Some "conv-9") (boot []) =
      (Raise (KeyError "root"), w') ∧
    self_state w' = Some (length (states (boot []))) ∧
    states w' =
      states (boot []) ++
      [{| title := None; conversation_id := Some "conv-9";
          model_slug := None; user_prompt := (defaults (boot [])).1;
          chatgpt_prompt := (defaults (boot [])).2; user_prompts := [];
          edit_index := None |}] ∧
    prompts w' = prompts (boot []) ∧ console w' = console (boot []) ∧
    calls w' = calls (boot []) ++ [call_get_conversation "conv-9"].
Proof.
  exact (load_missing_node sample_remote "conv-9" (boot []) eq_refl eq_refl).
Defined.

Lemma load_cycle_diverges_witness :
  (∀ fuel acc w0,
     (walk fuel
        (conv_mapping (chatgpt_get_conversation cyclic_remote
                         (calls (boot [])) (token_key (boot [])) "conv-9"))
        "m2" acc w0).1 = Raise Diverges) ∧
  (load_conversation cyclic_remote (Some "conv-9") (boot [])).1
    = Raise Diverges.
Proof.
  apply (load_cycle_diverges cyclic_remote "conv-9" (boot []) eq_refl).
  - eexists. vm_compute. reflexivity.
  - intros k n Hn. cbn in Hn. unfold path_map in Hn. cbn in Hn.
    apply lookup_insert_Some in Hn as [[<- <-]|[_ Hn]].
    { split; [reflexivity|]. eexists. vm_compute. reflexivity. }
    apply lookup_insert_Some in Hn as [[<- <-]|[_ Hn]].
    { split; [reflexivity|]. eexists. vm_compute. reflexivity. }
    by rewrite lookup_empty in Hn.
Defined.

(** * Reading a prompt from the keyboard *)

(** Plain lines are collected one by one. *)
Lemma get_input_loop_plain pre :
  ∀ tail lines fuel w,
    inputs w = pre ++ tail → Forall (λ l, plain_line l = true) pre →
    get_input_loop (length pre + fuel) lines w =
      get_input_loop fuel (lines ++ pre) (set_inputs tail w).
Proof.
  induction pre as [|line pre IH]; intros tail lines fuel w Hin Hplain.
  - cbn. rewrite app_nil_r. destruct w. cbn in *. by subst.
  - apply Forall_cons in Hplain as [Hline Hplain].
    cbn [length Nat.add get_input_loop].
    assert (input w = (Ok line, set_inputs (pre ++ tail) w)) as Hread
      by (unfold input, bind, get; by rewrite Hin).
    rewrite (bind_ok _ _ _ _ _ Hread).
    destruct line as [|c line]; [done|]. cbn [truthy negb].
    cbn in Hline. apply negb_true_iff in Hline. rewrite Hline.
    rewrite (IH tail (lines ++ [String c line]) fuel); [|done|done].
    by rewrite <- app_assoc.
Qed.

(** X13. A line that starts with '/' is returned at once and alone: the
    plain lines typed before it are read and thrown away, and the lines
    after it stay to be read. *)
Theorem get_input_command pre c cmd rest w :
  inputs w = pre ++ String c cmd :: rest →
  Forall (λ l, plain_line l = true) pre →
  c = "/"%char →
  get_input w = (Ok (String c cmd), set_inputs rest w).
Proof.
  intros Hin Hplain ->. unfold get_input.
  rewrite (bind_ok _ _ _ _ _ (eq_refl : get w = (Ok w, w))).
  rewrite Hin, length_app. cbn [length].
  replace (S (length pre + S (length rest)))
    with (length pre + S (S (length rest))) by lia.
  rewrite (get_input_loop_plain pre (String "/" cmd :: rest)) by done.
  cbn [get_input_loop]. unfold input, bind, get. cbn.
  by destruct w.
Qed.

Lemma get_input_command_witness :
  get_input (new_chat ["first line"; "/regen"; "later"]) =
    (Ok "/regen", set_inputs ["later"]
                    (new_chat ["first line"; "/regen"; "later"])).
Proof.
  assert (inputs (new_chat ["first line"; "/regen"; "later"]) =
            ["first line"] ++ "/regen" :: ["later"]) as Hin
    by (vm_compute; reflexivity).
  refine (get_input_command ["first line"] "/" "regen" ["later"] _ Hin _
            eq_refl).
  repeat constructor.
Defined.

(** X14. Plain lines closed by an empty line are returned joined by
    newlines, and exactly those lines and the empty one are consumed;
    when the input ends before an empty line or a command, the method
    raises [EOFError] with everything consumed. *)
Theorem get_input_text pre w :
  Forall (λ l, plain_line l = true) pre →
  (∀ rest, inputs w = pre ++ "" :: rest →
           get_input w = (Ok (String.concat newline pre), set_inputs rest w)) ∧
  (inputs w = pre → get_input w = (Raise EOFError, set_inputs [] w)).
Proof.
  intros Hplain. split.
  - intros rest Hin. unfold get_input.
    rewrite (bind_ok _ _ _ _ _ (eq_refl : get w = (Ok w, w))).
    rewrite Hin, length_app. cbn [length].
    replace (S (length pre + S (length rest)))
      with (length pre + S (S (length rest))) by lia.
    rewrite (get_input_loop_plain pre ("" :: rest)) by done.
    cbn [get_input_loop]. unfold input, bind, get. cbn.
    by destruct w.
  - intros Hin. unfold get_input.
    rewrite (bind_ok _ _ _ _ _ (eq_refl : get w = (Ok w, w))).
    rewrite Hin. replace (S (length pre)) with (length pre + 1) by lia.
    rewrite (get_input_loop_plain pre []); [|by rewrite app_nil_r|done].
    cbn [get_input_loop]. unfold input, bind, get. cbn.
    by destruct w.
Qed.

Lemma get_input_text_witness :
  let w := new_chat ["Dear bot,"; "tell me more."; ""; "next"] in
  (∀ rest, inputs w = ["Dear bot,"; "tell me more."] ++ "" :: rest →
           get_input w =
             (Ok (String.concat newline ["Dear bot,"; "tell me more."]),
              set_inputs rest w)) ∧
  (inputs w = ["Dear bot,"; "tell me more."] →
   get_input w = (Raise EOFError, set_inputs [] w)).
Proof.
  intros w. apply (get_input_text ["Dear bot,"; "tell me more."] w).
  repeat constructor.
Defined.

(** * The prompts left by the loader *)

(** The loop body writes the node into the user prompt of the state when
    it is a user node, into its assistant prompt when it is an assistant
    node, and leaves the other one, the title and the conversation id
    alone. *)
Lemma load_node_targets merge node w s st :
  self_state w = Some s → states w !! s = Some st →
  user_prompt st < length (prompts w) →
  chatgpt_prompt st < length (prompts w) →
  user_prompt st ≠ chatgpt_prompt st →
  loadable node = true →
  ∃ w' st',
    load_node merge node w = (Ok (next_merge merge node), w') ∧
    states w' !! s = Some st' ∧
    title st' = title st ∧ conversation_id st' = conversation_id st ∧
    prompts w' !! user_prompt st =
      (if bool_decide (node_role node = Some "user")
       then Some (node_prompt node) else prompts w !! user_prompt st) ∧
    prompts w' !! chatgpt_prompt st =
      (if bool_decide (node_role node = Some "assistant")
       then Some (node_prompt node) else prompts w !! chatgpt_prompt st).
Proof.
  intros Hs Hst Hu Hc Hne Hload.
  destruct (loadable_inv _ Hload) as (m & r & part & parts & Hm & Hr & Hp & Ht).
  unfold load_node. rewrite Hm. cbn [or_raise]. rewrite bind_ret.
  assert (∃ w1 st1,
    (match msg_model_slug m with
     | Some v => modify_state (with_model_slug (Some v))
     | None => ret tt
     end) w = (Ok tt, w1) ∧
    self_state w1 = Some s ∧ states w1 !! s = Some st1 ∧
    user_prompt st1 = user_prompt st ∧
    chatgpt_prompt st1 = chatgpt_prompt st ∧
    title st1 = title st ∧ conversation_id st1 = conversation_id st ∧
    prompts w1 = prompts w)
    as (w1 & st1 & Hslug & Hs1 & Hst1 & Hu1 & Hc1 & Htitle & Hcid & Hp1).
  { destruct (msg_model_slug m) as [v|].
    - exists (set_states (λ h, <[s := with_model_slug (Some v) st]> h) w),
        (with_model_slug (Some v) st).
      split; [by apply modify_state_ok|]. split; [done|]. split; [|done].
      apply list_lookup_insert_eq. by eapply lookup_lt_Some.
    - by exists w, st. }
  rewrite (bind_ok _ _ _ _ _ Hslug).
  assert ((match msg_author m with
           | Some r => ret r
           | None => or_raise (KeyError "role") (msg_role m)
           end) w1 = (Ok r, w1)) as Hrole.
  { unfold node_role in Hr. rewrite Hm in Hr. cbn in Hr.
    destruct (msg_author m); [by injection Hr as ->|]. by rewrite Hr. }
  rewrite (bind_ok _ _ _ _ _ Hrole).
  unfold next_merge, node_prompt. rewrite Hr, Ht.
  destruct (String.eqb_spec r "user") as [->|Hnu].
  - rewrite (bool_decide_eq_true_2 (Some "user" = Some "user")) by done.
    rewrite (bool_decide_eq_false_2 (Some "user" = Some "assistant")) by done.
    rewrite (bind_get_state _ _ s st1 Hs1 Hst1).
    rewrite Hp. cbn [or_raise head]. rewrite bind_ret.
    destruct (ChatPrompt_init_spec (Some part) (node_parent node) w1)
      as (c & w2 & Hinit & Hp2 & _ & _ & Hstates & Hself & _).
    rewrite (bind_ok _ _ _ _ _ Hinit).
    rewrite <- Hself in Hs1. rewrite <- Hstates in Hst1.
    rewrite (bind_modify_state _ _ _ s st1 Hs1 Hst1).
    unfold Console. rewrite !bind_modify.
    destruct (lookup_lt_is_Some_2 (prompts w2) (user_prompt st1)) as [c0 Hc0].
    { rewrite Hp2, length_app, Hp1, Hu1. lia. }
    erewrite load_node_record_ok; [|exact Hc0|exact Hp].
    eexists _, _. split; [done|]. cbn. split.
    { apply list_lookup_insert_eq. by eapply lookup_lt_Some. }
    cbn. split; [done|]. split; [done|]. rewrite Hu1. split.
    + apply list_lookup_insert_eq. rewrite Hp2, length_app, Hp1. lia.
    + rewrite list_lookup_insert_ne by done.
      rewrite Hp2, Hp1. by rewrite lookup_app_l.
  - rewrite (bool_decide_eq_false_2 (Some r = Some "user")) by congruence.
    destruct (String.eqb_spec r "assistant") as [->|Hna].
    + rewrite !bool_decide_eq_true_2 by done.
      rewrite (bind_get_state _ _ s st1 Hs1 Hst1).
      destruct (lookup_lt_is_Some_2 (prompts w1) (chatgpt_prompt st1))
        as [c0 Hc0]; [rewrite Hp1, Hc1; lia|].
      assert (holds_turn_open node =
                match msg_end_turn m with Some None => true | _ => false end)
        as Hopen by (unfold holds_turn_open; by rewrite Hm).
      rewrite Hopen.
      assert (∃ w2, (if negb merge then Console success_b "ChatGPT:"
                     else ret tt) w1 = (Ok tt, w2) ∧
                    prompts w2 = prompts w1 ∧ states w2 = states w1)
        as (w2 & Hhdr & Hp2 & Hst2).
      { destruct merge; cbn; eexists; (split; [done|]); done. }
      rewrite (bind_ok _ _ _ _ _ Hhdr).
      rewrite Hp. cbn [or_raise head]. rewrite bind_ret.
      unfold Console. rewrite bind_modify.
      rewrite <- Hp2 in Hc0.
      erewrite load_node_record_ok; [|exact Hc0|exact Hp].
      eexists _, st1. split; [done|]. cbn. rewrite Hst2.
      split; [done|]. split; [done|]. split; [done|].
      rewrite Hp2, Hp1, Hc1. split.
      * by rewrite list_lookup_insert_ne.
      * by apply list_lookup_insert_eq.
    + rewrite (bool_decide_eq_false_2 (Some r = Some "assistant")) by congruence.
      exists w1, st1. split; [done|]. rewrite Hp1. done.
Qed.

Lemma last_filter_cons {A} (P : A → Prop) `{∀ x, Decision (P x)} x l :
  last (filter P (x :: l)) =
    match last (filter P l) with
    | Some y => Some y
    | None => if bool_decide (P x) then Some x else None
    end.
Proof.
  rewrite filter_cons. destruct (decide (P x)).
  - rewrite bool_decide_eq_true_2 by done. rewrite last_cons.
    by destruct (last (filter P l)).
  - rewrite bool_decide_eq_false_2 by done. by destruct (last (filter P l)).
Qed.

Lemma load_nodes_targets nodes :
  ∀ merge w s st,
    self_state w = Some s → states w !! s = Some st →
    user_prompt st < length (prompts w) →
    chatgpt_prompt st < length (prompts w) →
    user_prompt st ≠ chatgpt_prompt st →
    Forall (λ n, loadable n = true) nodes →
    ∃ w' st',
      load_nodes merge nodes w = (Ok tt, w') ∧
      states w' !! s = Some st' ∧
      title st' = title st ∧ conversation_id st' = conversation_id st ∧
      user_prompt st' = user_prompt st ∧
      chatgpt_prompt st' = chatgpt_prompt st ∧
      prompts w' !! user_prompt st =
        match last (users nodes) with
        | Some n => Some (node_prompt n)
        | None => prompts w !! user_prompt st
        end ∧
      prompts w' !! chatgpt_prompt st =
        match last (assistants nodes) with
        | Some n => Some (node_prompt n)
        | None => prompts w !! chatgpt_prompt st
        end.
Proof.
  induction nodes as [|node rest IH]; intros merge w s st Hs Hst Hu Hc Hne Hall.
  - by exists w, st.
  - apply Forall_cons in Hall as [Hnode Hall].
    destruct (load_node_spec merge node w s st Hs Hst Hu Hc Hnode)
      as (w1 & st1 & Hrun1 & Hs1 & Hst1 & Hu1 & Hc1 & _ & Hlen1 & _).
    destruct (load_node_targets merge node w s st Hs Hst Hu Hc Hne Hnode)
      as (w1' & st1' & Hrun1' & Hst1' & Htitle1 & Hcid1 & Hup1 & Hcp1).
    assert (w1' = w1) as -> by congruence.
    assert (st1' = st1) as -> by congruence.
    destruct (IH (next_merge merge node) w1 s st1 Hs1 Hst1)
      as (w2 & st2 & Hrun2 & Hst2 & Htitle2 & Hcid2 & Hu2 & Hc2 & Hup2 & Hcp2);
      [lia|lia|congruence|done|].
    exists w2, st2. cbn [load_nodes]. rewrite (bind_ok _ _ _ _ _ Hrun1).
    split; [done|]. split; [done|].
    split; [congruence|]. split; [congruence|].
    split; [congruence|]. split; [congruence|].
    rewrite Hu1 in Hup2. rewrite Hc1 in Hcp2.
    unfold users, assistants. rewrite !last_filter_cons.
    fold (users rest) (assistants rest).
    rewrite Hup2, Hcp2, Hup1, Hcp1. split.
    + destruct (last (users rest)); [done|].
      by destruct (bool_decide (node_role node = Some "user")).
    + destruct (last (assistants rest)); [done|].
      by destruct (bool_decide (node_role node = Some "assistant")).
Qed.

Section Loaded.

Variable chatgpt : Remote.

(** X15. After a single path has been loaded, the state has the title
    and the id of the conversation, its assistant prompt holds the text,
    parent and node id of the last assistant node of the path, and its
    user prompt those of the last user node, so that the next turn is
    sent with the loaded conversation id and hangs below the loaded
    reply.  Both prompts are the default objects of [State]. *)
Theorem loader_prompts cid root path w :
  truthy cid = true →
  (defaults w).1 < length (prompts w) →
  (defaults w).2 < length (prompts w) →
  (defaults w).1 ≠ (defaults w).2 →
  conv_mapping (chatgpt_get_conversation chatgpt (calls w) (token_key w) cid)
    = path_map (root :: path) →
  conv_current_node
    (chatgpt_get_conversation chatgpt (calls w) (token_key w) cid)
    = node_id (leaf root path) →
  single_path root path →
  Forall (λ n, loadable n = true) path →
  ∃ w' st',
    load_conversation chatgpt (Some cid) w = (Ok tt, w') ∧
    self_state w' = Some (length (states w)) ∧
    states w' !! length (states w) = Some st' ∧
    title st' =
      Some (conv_title (chatgpt_get_conversation chatgpt (calls w)
                          (token_key w) cid)) ∧
    conversation_id st' = Some cid ∧
    user_prompt st' = (defaults w).1 ∧
    chatgpt_prompt st' = (defaults w).2 ∧
    prompts w' !! (defaults w).1 =
      match last (users path) with
      | Some n => Some (node_prompt n)
      | None => prompts w !! (defaults w).1
      end ∧
    prompts w' !! (defaults w).2 =
      match last (assistants path) with
      | Some n => Some (node_prompt n)
      | None => prompts w !! (defaults w).2
      end.
Proof.
  intros Hcid Hdu Hdc Hdne Hmap Hcur Hpath Hload.
  pose proof Hpath as (Hroot & Hnd & Hlinked).
  unfold load_conversation. cbn [truthy_opt]. rewrite Hcid.
  cbn [negb]. change (default "" (Some cid)) with cid.
  rewrite (bind_ok _ _ _ _ _
             (eq_refl : State_init None (Some cid) None None None w =
                        (Ok (length (states w)), _))).
  rewrite bind_modify, bind_request.
  cbn [calls token_key set_calls set_self_state set_states default].
  rewrite Hmap, Hcur.
  rewrite path_map_size by done. cbn [length].
  erewrite bind_ok;
    [|apply (walk_path root path _ Hpath path []);
      [by rewrite app_nil_r | cbn; lia]].
  rewrite app_nil_r.
  set (s := length (states w)).
  set (st0 := {| title := None; conversation_id := Some cid;
                 model_slug := None; user_prompt := (defaults w).1;
                 chatgpt_prompt := (defaults w).2; user_prompts := [];
                 edit_index := None |}).
  erewrite bind_modify_state;
    [|reflexivity|by apply (list_lookup_middle (states w) [] st0)].
  erewrite (bind_ok (print_conversation_title _)); [|reflexivity].
  set (st1 := with_title (Some (conv_title
                 (chatgpt_get_conversation chatgpt (calls w)
                    (token_key w) cid))) st0).
  match goal with
  | |- ∃ _ _, load_nodes false path ?W = _ ∧ _ => set (w1 := W)
  end.
  assert (self_state w1 = Some s) as Hs1 by reflexivity.
  assert (states w1 !! s = Some st1) as Hst1.
  { cbn. apply list_lookup_insert_eq. rewrite length_app. cbn. lia. }
  destruct (load_nodes_targets path false w1 s st1 Hs1 Hst1 Hdu Hdc Hdne Hload)
    as (w' & st' & Hrun & Hst' & Htitle & Hcid' & Hu' & Hc' & Hup & Hcp).
  destruct (load_nodes_spec path false w1 s st1 Hs1 Hst1 Hdu Hdc Hload)
    as (w'' & st'' & locs & Hrun' & Hs' & _).
  assert (w'' = w') as -> by congruence.
  exists w', st'. split; [exact Hrun|]. split; [exact Hs'|]. done.
Qed.

End Loaded.

Lemma loader_prompts_witness :
  ∃ w' st',
    load_conversation saved_remote (Some "conv-9") (boot []) = (Ok tt, w') ∧
    self_state w' = Some (length (states (boot []))) ∧
    states w' !! length (states (boot [])) = Some st' ∧
    title st' =
      Some (conv_title (chatgpt_get_conversation saved_remote
                          (calls (boot [])) (token_key (boot [])) "conv-9")) ∧
    conversation_id st' = Some "conv-9" ∧
    user_prompt st' = (defaults (boot [])).1 ∧
    chatgpt_prompt st' = (defaults (boot [])).2 ∧
    prompts w' !! (defaults (boot [])).1 =
      match last (users saved_path) with
      | Some n => Some (node_prompt n)
      | None => prompts (boot []) !! (defaults (boot [])).1
      end ∧
    prompts w' !! (defaults (boot [])).2 =
      match last (assistants saved_path) with
      | Some n => Some (node_prompt n)
      | None => prompts (boot []) !! (defaults (boot [])).2
      end.
Proof.
  assert ((defaults (boot [])).1 < length (prompts (boot []))) as Hdu
    by (vm_compute; lia).
  assert ((defaults (boot [])).2 < length (prompts (boot []))) as Hdc
    by (vm_compute; lia).
  assert ((defaults (boot [])).1 ≠ (defaults (boot [])).2) as Hne
    by (vm_compute; lia).
  assert (single_path saved_root saved_path) as Hpath.
  { split; [reflexivity|]. split.
    - apply (bool_decide_eq_true_1 _). vm_compute. reflexivity.
    - cbn. repeat split. }
  assert (Forall (λ n, loadable n = true) saved_path) as Hload
    by repeat constructor.
  exact (loader_prompts saved_remote "conv-9" saved_root saved_path (boot [])
           eq_refl Hdu Hdc Hne eq_refl eq_refl Hpath Hload).
Defined.

(** * A first turn that is answered *)

(** A stream of well-formed events is consumed to its end. *)
Lemma print_reply_loop_ok generator :
  ∀ p w, ready w → Forall (λ ev, well_formed ev = true) generator →
         ∃ w', print_reply_loop p generator w = (Ok tt, w').
Proof.
  induction generator as [|e rest IH]; intros p w Hready Hwf.
  - by exists w.
  - apply Forall_cons in Hwf as [He Hwf].
    destruct (well_formed_inv _ He) as (Herr & m & r & part & parts & Hm & Hr & Hp).
    destruct Hready as (s & st & Hs & Hst & Hu & Hc).
    destruct (lookup_lt_is_Some_2 _ _ Hu) as [up Hup].
    destruct (lookup_lt_is_Some_2 _ _ Hc) as [cp Hcp].
    pose proof (print_reply_event_ok p e w s st up cp m r part parts
                  Hs Hst Hup Hcp Herr Hm Hr Hp) as Hrun.
    destruct (ready_after_event s st up e m r part p w Hs Hst Hu Hc)
      as (Hs' & Hst' & Hlen').
    destruct (IH (advanced p r part) (after_event s st up e m r part p w))
      as (w1 & Hrest); [|done|].
    { exists s, (with_conversation_id (ev_conversation_id e) st).
      rewrite Hlen'. by cbn [with_conversation_id user_prompt chatgpt_prompt]. }
    exists w1. cbn [print_reply_loop]. by rewrite (bind_ok _ _ _ _ _ Hrun).
Qed.

(** A reply of status 200 made of well-formed events is printed without
    exception. *)
Lemma print_reply_ok generator w :
  ready w → Forall (λ ev, well_formed ev = true) generator →
  ∃ w', print_reply 200 generator w = (Ok tt, w').
Proof.
  intros Hready Hwf.
  destruct (print_reply_loop_ok generator 0 w Hready Hwf) as [w1 Hloop].
  unfold print_reply. cbn [Z.eqb Pos.eqb negb].
  rewrite (bind_ok _ _ _ _ _ Hloop). unfold print, modify. eauto.
Qed.

Section Answered.

Variable chatgpt : Remote.

(** The preparation of a turn succeeds in a state that is ready for it. *)
Lemma talk_prepare_ok st text w s :
  self_state w = Some s → states w !! s = Some st → turn_ready st w →
  ∃ w1, talk_prepare st text w = (Ok tt, w1).
Proof.
  intros Hs Hst [Hc Hedit].
  destruct (edit_index st) as [[|idx]|] eqn:E.
  2: { destruct Hedit as (l & Hl & Hlt).
       destruct (lookup_lt_is_Some_2 _ _ Hlt) as [old Hold].
       by eapply talk_prepare_edit_ok. }
  all: destruct (lookup_lt_is_Some_2 _ _ Hc) as [last Hlast];
    unfold talk_prepare; rewrite E, (bind_deref _ _ _ _ Hlast);
    destruct (ChatPrompt_init_spec (Some text) (Some (message_id last)) w)
      as (c & w2 & Hinit & _ & _ & _ & Hstates & Hself & _);
    rewrite (bind_ok _ _ _ _ _ Hinit);
    rewrite <- Hself in Hs; rewrite <- Hstates in Hst;
    erewrite modify_state_ok; [|exact Hs|exact Hst]; eauto.
Qed.

(** A turn whose request is answered with status 200 and a stream of
    well-formed events returns normally. *)
Lemma talk_returns text w s st :
  self_state w = Some s → states w !! s = Some st → turn_ready st w →
  (∀ mid pid,
     let reply := chatgpt_talk chatgpt (calls w) (token_key w) text
                    (model_slug st) mid pid (conversation_id st) in
     reply.1 = 200%Z ∧ Forall (λ ev, well_formed ev = true) reply.2) →
  ∃ w', talk chatgpt text w = (Ok tt, w').
Proof.
  intros Hs Hst Hready Hans. unfold talk, Console.
  rewrite bind_modify. erewrite bind_get_state; [|exact Hs|exact Hst].
  set (w0 := set_console _ w).
  destruct (talk_prepare_ok st text w0 s Hs Hst Hready) as [w1 Hprep].
  rewrite (bind_ok _ _ _ _ _ Hprep).
  apply (talk_prepare_inv _ _ _ _ s) in Hprep
    as (c & st1 & Hp & _ & Hs1 & Hst1 & Hu1 & Hc1 & Hcid & Hmodel & Hcalls
        & Htok & _); [|exact Hs|exact Hst].
  cbn in Hp, Hu1, Hcalls, Htok.
  assert (prompts w1 !! user_prompt st1 = Some c) as Hup.
  { rewrite Hp, Hu1. by apply list_lookup_middle. }
  destruct Hready as [Hclt _].
  unfold talk_exchange.
  rewrite (bind_get_state _ _ s st1 Hs1 Hst1).
  rewrite (bind_deref _ _ _ _ Hup), bind_request.
  rewrite Hcalls, Htok, Hmodel, Hcid.
  destruct (Hans (message_id c) (parent_id c)) as [Hstatus Hwf].
  cbv zeta in Hstatus, Hwf. rewrite Hstatus.
  set (reply := chatgpt_talk _ _ _ _ _ _ _ _) in *.
  set (w2 := set_calls _ w1).
  assert (ready w2) as Hready2.
  { exists s, st1. split; [done|]. split; [done|]. cbn.
    rewrite Hp, length_app, Hu1, Hc1. cbn. lia. }
  destruct (print_reply_ok reply.2 w2 Hready2 Hwf) as [w3 Hprint].
  rewrite (bind_ok _ _ _ _ _ Hprint).
  apply print_reply_inv in Hprint as (_ & w4 & Hloop & ->).
  apply (print_reply_loop_inv _ _ _ _ s st1) in Hloop
    as (Hs4 & _ & _ & _ & [cid Hstates] & Hlen & _); [|done..].
  pose proof (lookup_lt_Some _ _ _ Hst1) as Hslt.
  erewrite bind_modify_state;
    [|exact Hs4|cbn; rewrite Hstates; by apply list_lookup_insert_eq].
  destruct (negb (truthy_opt (conversation_id st))); [|by eexists].
  assert (chatgpt_prompt st1 < length (prompts w4)) as Hclt4.
  { rewrite Hlen. cbn. rewrite Hp, length_app, Hc1. cbn. lia. }
  destruct (lookup_lt_is_Some_2 _ _ Hclt4) as [last Hlast].
  erewrite talk_title_ok;
    [by eexists
    |exact Hs4
    |cbn; apply list_lookup_insert_eq; by rewrite Hstates, length_insert
    |exact Hlast].
Qed.

(** C7.  On a state without a conversation id (a first turn), a [talk]
    that returns normally has sent exactly one title request, right
    after the talk request, and the title of the state is the answer to
    it; and [talk] does return normally, with that one request sent and
    that title adopted, when the state is ready for the turn and the
    remote answers the talk request with status 200 and a stream of
    well-formed events.  On a state with a conversation id no title
    request is sent, whatever the outcome. *)
Theorem first_turn_titling text w s st :
  self_state w = Some s → states w !! s = Some st →
  let titled (w' : World) :=
    title_requests (calls w') = S (title_requests (calls w)) ∧
    ∃ c cid model mid st',
      is_title_request c = false ∧
      calls w' = calls w ++ [c; call_gen_conversation_title cid model mid] ∧
      states w' !! s = Some st' ∧
      title st' =
        Some (chatgpt_gen_conversation_title chatgpt (calls w ++ [c])
                (token_key w) cid model mid) in
  if truthy_opt (conversation_id st) then
    title_requests (calls (talk chatgpt text w).2) = title_requests (calls w)
  else
    (∀ w', talk chatgpt text w = (Ok tt, w') → titled w') ∧
    (turn_ready st w →
     (∀ mid pid,
        let reply := chatgpt_talk chatgpt (calls w) (token_key w) text
                       (model_slug st) mid pid (conversation_id st) in
        reply.1 = 200%Z ∧ Forall (λ ev, well_formed ev = true) reply.2) →
     ∃ w', talk chatgpt text w = (Ok tt, w') ∧ titled w').
Proof.
  intros Hs Hst titled.
  pose proof (talk_title_requests chatgpt text w s st Hs Hst) as H.
  destruct (truthy_opt (conversation_id st)); [exact H|].
  split; [exact H|]. intros Hready Hans.
  destruct (talk_returns text w s st Hs Hst Hready Hans) as [w' Hrun].
  exists w'. split; [exact Hrun|]. by apply H.
Qed.

End Answered.

Lemma first_turn_titling_witness :
  (∃ w', talk sample_remote "hi" (new_chat []) = (Ok tt, w') ∧
         title_requests (calls w') =
           S (title_requests (calls (new_chat [])))) ∧
  title_requests (calls (talk sample_remote "more" (established_chat [])).2) =
    title_requests (calls (established_chat [])).
Proof.
  split.
  - assert (self_state (new_chat []) = Some 0) as Hs
      by (vm_compute; reflexivity).
    assert (states (new_chat []) !! 0 =
              Some {| title := Some "New Chat"; conversation_id := None;
                      model_slug := Some "model-1"; user_prompt := 0;
                      chatgpt_prompt := 1; user_prompts := [];
                      edit_index := None |}) as Hst
      by (vm_compute; reflexivity).
    pose proof (first_turn_titling sample_remote "hi" (new_chat []) 0 _
                  Hs Hst) as H.
    cbv zeta in H. cbn [truthy_opt conversation_id] in H.
    destruct H as [_ H].
    destruct H as (w' & Hrun & Hone & _).
    + split; [vm_compute; lia|exact I].
    + intros mid pid. split; [reflexivity|].
      repeat constructor.
    + exists w'. by split.
  - assert (self_state (established_chat []) = Some 0) as Hs
      by (vm_compute; reflexivity).
    assert (states (established_chat []) !! 0 =
              Some {| title := Some "A title";
                      conversation_id := Some "conv-1";
                      model_slug := Some "model-1"; user_prompt := 2;
                      chatgpt_prompt := 1; user_prompts := [2];
                      edit_index := None |}) as Hst
      by (vm_compute; reflexivity).
    exact (first_turn_titling sample_remote "more" (established_chat []) 0 _
             Hs Hst).
Defined.
